(** * HoneyPOT: the intelligence-extraction and scoring engine

    A shallow embedding of [src/api.ts] (the part that is
    [services/honeypotLogic.ts]: [detectScam], [extractIntelligence],
    [createFinalOutput], [evaluateFinalOutput]) and of [src/constants.ts]
    ([SCAM_KEYWORDS]), with the properties stated about them.

    Conventions of the embedding.
    - A JavaScript string is a sequence of code units.  We use [string], one
      [ascii] per code unit, so the texts covered are those whose code units
      lie in 0..255 (ASCII and Latin-1).
    - A JavaScript [number] that is only compared or tested for truthiness is
      a [number] below (NaN, the two infinities, or a finite value as a
      rational).  Scores are small multiples of 2.5, exact both as doubles
      and as rationals, and are kept in [Q].
    - A property that may be missing from an object is an [option].
    - A [TypeError] thrown by a property access on [undefined] is the
      [TypeError] result. *)

From Stdlib Require Import String Ascii List Bool Arith NArith Lia.
From Stdlib Require Import QArith Qminmax Lqa Permutation.
Import ListNotations.

Close Scope Q_scope.
Open Scope string_scope.
Open Scope list_scope.

(* ================================================================== *)
(** ** JavaScript strings *)

Module JsString.

(** Code units of a string, first to last. *)
Definition units (s : string) : list ascii := list_ascii_of_string s.

Definition code (c : ascii) : N := N_of_ascii c.

Definition in_range (lo hi : N) (c : ascii) : bool :=
  ((lo <=? code c) && (code c <=? hi))%N.

(** [String.prototype.toLowerCase] on one code unit of 0..255: the letters
    A-Z, and the Latin-1 capitals U+00C0..U+00DE except the multiplication
    sign U+00D7, move up by 32; everything else is unchanged. *)
Definition lowerUnit (c : ascii) : ascii :=
  if in_range 65 90 c
     || (in_range 192 222 c && negb (code c =? 215)%N)
  then ascii_of_N (code c + 32)
  else c.

Fixpoint toLowerCase (s : string) : string :=
  match s with
  | EmptyString => EmptyString
  | String c s' => String (lowerUnit c) (toLowerCase s')
  end.

(** [t] is an initial segment of [s]. *)
Fixpoint startsWith (s t : string) {struct t} : bool :=
  match t, s with
  | EmptyString, _ => true
  | String _ _, EmptyString => false
  | String c t', String d s' => Ascii.eqb c d && startsWith s' t'
  end.

(** [s.includes(t)]: [t] occurs in [s] as a contiguous run of code units. *)
Fixpoint includes (s t : string) : bool :=
  if startsWith s t then true
  else match s with
       | EmptyString => false
       | String _ s' => includes s' t
       end.

(** White space in the sense of [\s] and of [String.prototype.trim],
    within 0..255: TAB, LF, VT, FF, CR, SPACE and NBSP. *)
Definition isWhiteSpace (c : ascii) : bool :=
  in_range 9 13 c || (code c =? 32)%N || (code c =? 160)%N.

Definition isWhitespaceOnly (s : string) : bool :=
  forallb isWhiteSpace (units s).

(** Truthiness of a string: every string but the empty one. *)
Definition truthy (s : string) : bool :=
  match s with EmptyString => false | String _ _ => true end.

End JsString.

Import JsString.

(* ================================================================== *)
(** ** constants.ts *)

Definition SCAM_KEYWORDS : list string :=
  [ "urgent"; "blocked"; "verify"; "otp"; "account compromised"; "cashback";
    "won"; "claim"; "link"; "expires"; "congratulations"; "reward"; "offer";
    "limited time"; "important security alert"; "suspicious activity";
    "update your information"; "login now"; "verify your identity";
    "click here"; "download now"; "payment failed"; "transaction alert";
    "prize"; "lucky draw"; "your package is delayed" ].

(* ================================================================== *)
(** ** detectScam *)

Definition detectScam (message : string) (currentScamDetected : bool) : bool :=
  if currentScamDetected then true
  else
    let lowerCaseMessage := toLowerCase message in
    existsb (fun keyword => includes lowerCaseMessage (toLowerCase keyword))
            SCAM_KEYWORDS.

(** The string starts with a code unit that is not white space. *)
Definition startsVisible (kw : string) : bool :=
  match kw with
  | EmptyString => false
  | String c _ => negb (isWhiteSpace c)
  end.


(* ================================================================== *)
(** ** JavaScript numbers and exceptions *)

Module JsNumber.

(** A [number] that the code only compares and tests for truthiness. *)
Inductive number : Type :=
| NaN
| PosInf
| NegInf
| Fin (q : Q).

Definition ofNat (n : nat) : number := Fin (inject_Z (Z.of_nat n)).

(** [x > q] for a finite [q]; every comparison with NaN is false. *)
Definition gt (x : number) (q : Q) : bool :=
  match x with
  | NaN => false
  | PosInf => true
  | NegInf => false
  | Fin p => negb (Qle_bool p q)
  end.

(** [x >= q] for a finite [q]. *)
Definition ge (x : number) (q : Q) : bool :=
  match x with
  | NaN => false
  | PosInf => true
  | NegInf => false
  | Fin p => Qle_bool q p
  end.

(** Truthiness: every number but zero and NaN. *)
Definition truthy (x : number) : bool :=
  match x with
  | NaN => false
  | PosInf | NegInf => true
  | Fin p => negb (Qeq_bool p 0%Q)
  end.

(** [x || 0], where [x] may be [undefined]. *)
Definition orZero (x : option number) : number :=
  match x with
  | Some v => if truthy v then v else Fin 0%Q
  | None => Fin 0%Q
  end.

End JsNumber.

Import JsNumber.

(** The outcome of a call that may throw on [undefined.property]. *)
Inductive result (A : Type) : Type :=
| Ok (a : A)
| TypeError.

Arguments Ok {A} a.
Arguments TypeError {A}.

(* ================================================================== *)
(** ** The data model (types.ts) *)

(** Modelled from the spec: the declarations of [types.ts] ([Sender],
    [ConversationMessage], [ExtractedIntelligence], [Scenario],
    [FinalOutput]) are not part of the sources at hand; the records below
    follow section 3 of the specification and the way [honeypotLogic.ts]
    builds and reads these objects. *)
Inductive Sender : Type := SCAMMER | HONEYPOT | USER.

Record ConversationMessage : Type := {
  sender : Sender;
  text : string;
  timestamp : string;
  type : Sender
}.

(** A [Set<string>]: its elements in insertion order, each once. *)
Definition JsSet : Type := list string.

Definition Set_add (s : JsSet) (x : string) : JsSet :=
  if existsb (String.eqb x) s then s else s ++ [x].

(** [Array.from(set)]: the elements in insertion order. *)
Definition Array_from (s : JsSet) : list string := s.

(** The six categories, holding sets during a session
    ([ExtractedIntelligence]) and arrays in a [FinalOutput]. *)
Record Intelligence (C : Type) : Type := {
  phoneNumbers : C;
  bankAccounts : C;
  upiIds : C;
  phishingLinks : C;
  emailAddresses : C;
  otherIds : C
}.

Arguments phoneNumbers {C} _.
Arguments bankAccounts {C} _.
Arguments upiIds {C} _.
Arguments phishingLinks {C} _.
Arguments emailAddresses {C} _.
Arguments otherIds {C} _.

Definition ExtractedIntelligence : Type := Intelligence JsSet.

(** [fakeData]: the own enumerable properties of the object in the order
    of [Object.entries]; a value is [None] when it is [undefined]. *)
Record Scenario : Type := {
  id : string;
  name : string;
  description : string;
  fakeData : list (string * option string)
}.

Module EngagementMetrics.
Record t : Type := {
  totalMessagesExchanged : option number;
  engagementDurationSeconds : option number
}.
End EngagementMetrics.

(** A [FinalOutput] as [evaluateFinalOutput] may receive it: a property that
    is missing from the object is [None]. *)
Record FinalOutput : Type := {
  sessionId : option string;
  scamDetected : option bool;
  totalMessagesExchanged : option number;
  extractedIntelligence : option (Intelligence (list string));
  engagementMetrics : option EngagementMetrics.t;
  agentNotes : option string
}.

Record ScoreBreakdown : Type := {
  scamDetection : Q;
  intelligenceExtraction : Q;
  engagementQuality : Q;
  responseStructure : Q;
  total : Q
}.

(* ================================================================== *)
(** ** createFinalOutput *)

Definition createFinalOutput
    (sessionId : string)
    (conversationHistory : list ConversationMessage)
    (scamDetected : bool)
    (finalExtractedIntelligence : ExtractedIntelligence)
    (engagementDurationSeconds : number)
    (agentNotes : string)
    (scenario : Scenario) : FinalOutput :=
  let totalMessagesExchanged := ofNat (length conversationHistory) in
  {| sessionId := Some sessionId;
     scamDetected := Some scamDetected;
     totalMessagesExchanged := Some totalMessagesExchanged;
     extractedIntelligence := Some
       {| phoneNumbers := Array_from (phoneNumbers finalExtractedIntelligence);
          bankAccounts := Array_from (bankAccounts finalExtractedIntelligence);
          upiIds := Array_from (upiIds finalExtractedIntelligence);
          phishingLinks := Array_from (phishingLinks finalExtractedIntelligence);
          emailAddresses := Array_from (emailAddresses finalExtractedIntelligence);
          otherIds := Array_from (otherIds finalExtractedIntelligence) |};
     engagementMetrics := Some
       {| EngagementMetrics.totalMessagesExchanged := Some totalMessagesExchanged;
          EngagementMetrics.engagementDurationSeconds :=
            Some engagementDurationSeconds |};
     agentNotes := Some agentNotes |}.

(* ================================================================== *)
(** ** evaluateFinalOutput *)

(** The object literal [keyMapping], read at [fakeKey]. *)
Definition keyMapping (fakeKey : string) : option string :=
  if (fakeKey =? "bankAccount")%string then Some "bankAccounts"
  else if (fakeKey =? "upiId")%string then Some "upiIds"
  else if (fakeKey =? "phoneNumber")%string then Some "phoneNumbers"
  else if (fakeKey =? "phishingLink")%string then Some "phishingLinks"
  else if (fakeKey =? "emailAddress")%string then Some "emailAddresses"
  else None.

(** [extracted[outputKey]]: one of the six arrays, or [undefined].  (A name
    inherited from [Object.prototype], such as [toString], never reaches this
    lookup as such: [keyMapping] inherits it too, so [outputKey] becomes a
    function or an object, whose string form names no property of
    [extracted]; either way no array is found.) *)
Definition getProperty (extracted : Intelligence (list string))
    (outputKey : string) : option (list string) :=
  if (outputKey =? "phoneNumbers")%string then Some (phoneNumbers extracted)
  else if (outputKey =? "bankAccounts")%string then Some (bankAccounts extracted)
  else if (outputKey =? "upiIds")%string then Some (upiIds extracted)
  else if (outputKey =? "phishingLinks")%string then Some (phishingLinks extracted)
  else if (outputKey =? "emailAddresses")%string then Some (emailAddresses extracted)
  else if (outputKey =? "otherIds")%string then Some (otherIds extracted)
  else None.

(** One turn of the loop over [Object.entries(fakeData)], from the score so
    far to the score after it. *)
Definition scoreEntry (extracted : option (Intelligence (list string)))
    (score : Q) (entry : string * option string) : result Q :=
  let '(fakeKey, fakeValue) := entry in
  match fakeValue with
  | None => Ok score
  | Some fakeValue =>
      if JsString.truthy fakeValue then
        let outputKey :=
          match keyMapping fakeKey with Some k => k | None => fakeKey end in
        match extracted with
        | None => TypeError
        | Some extracted =>
            let extractedValues :=
              match getProperty extracted outputKey with
              | Some vs => vs
              | None => []
              end in
            if existsb (fun v => includes v fakeValue) extractedValues
            then Ok (score + 10)%Q
            else Ok score
        end
      else Ok score
  end.

Fixpoint scoreEntries (extracted : option (Intelligence (list string)))
    (entries : list (string * option string)) (score : Q) : result Q :=
  match entries with
  | [] => Ok score
  | entry :: rest =>
      match scoreEntry extracted score entry with
      | Ok score' => scoreEntries extracted rest score'
      | TypeError => TypeError
      end
  end.

(** The names in [requiredFields] and [optionalFields]. *)
Inductive FinalOutputKey : Type :=
| K_sessionId
| K_scamDetected
| K_extractedIntelligence
| K_engagementMetrics
| K_totalMessagesExchanged
| K_agentNotes.

Definition isSome {A : Type} (o : option A) : bool :=
  match o with Some _ => true | None => false end.

(** [field in finalOutput]. *)
Definition hasField (finalOutput : FinalOutput) (field : FinalOutputKey) : bool :=
  match field with
  | K_sessionId => isSome (sessionId finalOutput)
  | K_scamDetected => isSome (scamDetected finalOutput)
  | K_extractedIntelligence => isSome (extractedIntelligence finalOutput)
  | K_engagementMetrics => isSome (engagementMetrics finalOutput)
  | K_totalMessagesExchanged => isSome (totalMessagesExchanged finalOutput)
  | K_agentNotes => isSome (agentNotes finalOutput)
  end.

(** Truthiness of [finalOutput[field]]. *)
Definition fieldTruthy (finalOutput : FinalOutput) (field : FinalOutputKey) : bool :=
  match field with
  | K_sessionId =>
      match sessionId finalOutput with Some s => JsString.truthy s | None => false end
  | K_scamDetected =>
      match scamDetected finalOutput with Some b => b | None => false end
  | K_extractedIntelligence => isSome (extractedIntelligence finalOutput)
  | K_engagementMetrics => isSome (engagementMetrics finalOutput)
  | K_totalMessagesExchanged =>
      match totalMessagesExchanged finalOutput with
      | Some n => JsNumber.truthy n
      | None => false
      end
  | K_agentNotes =>
      match agentNotes finalOutput with Some s => JsString.truthy s | None => false end
  end.

Definition requiredFields : list FinalOutputKey :=
  [K_sessionId; K_scamDetected; K_extractedIntelligence; K_engagementMetrics;
   K_totalMessagesExchanged].

Definition optionalFields : list FinalOutputKey := [K_agentNotes].

Definition evaluateFinalOutput
    (finalOutput : FinalOutput)
    (scenario : Scenario)
    (conversationHistory : list ConversationMessage) : result ScoreBreakdown :=
  (* 1. Scam Detection *)
  let scamDetection := if fieldTruthy finalOutput K_scamDetected then 20%Q else 0%Q in
  (* 2. Intelligence Extraction *)
  let extracted := extractedIntelligence finalOutput in
  match scoreEntries extracted (fakeData scenario) 0%Q with
  | TypeError => TypeError
  | Ok raw =>
      let intelligenceExtraction := Qmin raw 40%Q in
      (* 3. Engagement Quality *)
      match engagementMetrics finalOutput with
      | None => TypeError
      | Some metrics =>
          let duration :=
            orZero (EngagementMetrics.engagementDurationSeconds metrics) in
          let messages :=
            orZero (EngagementMetrics.totalMessagesExchanged metrics) in
          let q0 := 0%Q in
          let q1 := if gt duration 0%Q then (q0 + 5)%Q else q0 in
          let q2 := if gt duration 60%Q then (q1 + 5)%Q else q1 in
          let q3 := if gt messages 0%Q then (q2 + 5)%Q else q2 in
          let engagementQuality := if ge messages 5%Q then (q3 + 5)%Q else q3 in
          (* 4. Response Structure *)
          let r1 :=
            fold_left
              (fun acc field => if hasField finalOutput field then (acc + 5)%Q else acc)
              requiredFields 0%Q in
          let r2 :=
            fold_left
              (fun acc field =>
                 if hasField finalOutput field && fieldTruthy finalOutput field
                 then (acc + (5 # 2))%Q else acc)
              optionalFields r1 in
          let responseStructure := Qmin r2 20%Q in
          Ok {| scamDetection := scamDetection;
                intelligenceExtraction := intelligenceExtraction;
                engagementQuality := engagementQuality;
                responseStructure := responseStructure;
                total := (scamDetection + intelligenceExtraction
                          + engagementQuality + responseStructure)%Q |}
      end
  end.

(* ================================================================== *)
(** ** Regular expressions

    The fragment of ECMAScript regular expressions that the six patterns of
    [honeypotLogic.ts] are written in, with the backtracking semantics of the
    language definition: a matcher takes a position, the capture of group 1
    and a continuation, and alternatives are tried in order (greedy
    quantifiers try the longest run first).  Quantifiers with a count apply
    to character classes only, which is all the patterns need. *)

Module Regex.

Definition CharSet : Type := ascii -> bool.

Inductive regex : Type :=
| Empty
| Char (cs : CharSet)
| Repeat (cs : CharSet) (min : nat) (max : option nat)
| Seq (r1 r2 : regex)
| Alt (r1 r2 : regex)
| Optional (r : regex)
| WordBoundary
| Group (r : regex).

(** A position in the input: the code unit before it, the code units from
    it on, and its index. *)
Record Pos : Type := {
  before : option ascii;
  rest : list ascii;
  index : nat
}.

(** Start and end index of what group 1 matched, if it took part. *)
Definition Capture : Type := option (nat * nat).

Record Match : Type := {
  matchIndex : nat;
  matchEnd : nat;
  group1 : Capture
}.

Definition Cont (R : Type) : Type := Pos -> Capture -> option R.

Definition orElse {R : Type} (a b : option R) : option R :=
  match a with Some x => Some x | None => b end.

(** [\w]: letters, digits and the underscore. *)
Definition isWordChar (c : ascii) : bool :=
  in_range 97 122 c || in_range 65 90 c || in_range 48 57 c
  || (code c =? 95)%N.

Definition isWordCharAt (o : option ascii) : bool :=
  match o with Some c => isWordChar c | None => false end.

(** [cs{min,max}], greedy: one more code unit of [cs] first, and only when
    that fails (and [min] is reached) the continuation from here. *)
Fixpoint repeat {R : Type} (cs : CharSet) (min : nat) (max : option nat)
    (prev : option ascii) (input : list ascii) (i : nat)
    (k : option ascii -> list ascii -> nat -> option R) {struct input}
    : option R :=
  match max with
  | Some O => k prev input i
  | _ =>
      let more :=
        match input with
        | c :: input' =>
            if cs c
            then repeat cs (Nat.pred min) (option_map Nat.pred max)
                        (Some c) input' (S i) k
            else None
        | [] => None
        end in
      match min with
      | S _ => more
      | O => orElse more (k prev input i)
      end
  end.

Fixpoint run {R : Type} (r : regex) (p : Pos) (cap : Capture)
    (k : Cont R) : option R :=
  match r with
  | Empty => k p cap
  | Char cs =>
      match rest p with
      | c :: input' =>
          if cs c
          then k {| before := Some c; rest := input'; index := S (index p) |} cap
          else None
      | [] => None
      end
  | Repeat cs min max =>
      repeat cs min max (before p) (rest p) (index p)
             (fun b l i => k {| before := b; rest := l; index := i |} cap)
  | Seq r1 r2 => run r1 p cap (fun p' cap' => run r2 p' cap' k)
  | Alt r1 r2 => orElse (run r1 p cap k) (run r2 p cap k)
  | Optional r1 =>
      orElse
        (run r1 p cap
             (fun p' cap' =>
                if (index p' =? index p)%nat then None else k p' cap'))
        (k p cap)
  | WordBoundary =>
      if xorb (isWordCharAt (before p)) (isWordCharAt (hd_error (rest p)))
      then k p cap
      else None
  | Group r1 =>
      run r1 p cap (fun p' _ => k p' (Some (index p, index p')))
  end.

(** The leftmost match that starts at or after the position. *)
Fixpoint search (r : regex) (prev : option ascii) (input : list ascii)
    (i : nat) {struct input} : option Match :=
  orElse
    (run r {| before := prev; rest := input; index := i |} None
         (fun p' cap' =>
            Some {| matchIndex := i; matchEnd := index p'; group1 := cap' |}))
    (match input with
     | [] => None
     | c :: input' => search r (Some c) input' (S i)
     end).

(** The position [n] code units into the input. *)
Fixpoint seek (prev : option ascii) (input : list ascii) (i n : nat) : Pos :=
  match n, input with
  | S n', c :: input' => seek (Some c) input' (S i) n'
  | _, _ => {| before := prev; rest := input; index := i |}
  end.

(** [regexp.exec(s)] for a regular expression with the [g] flag whose
    [lastIndex] is [lastIndex]: the match, if any, and the new
    [lastIndex]. *)
Definition exec (r : regex) (s : string) (lastIndex : nat)
    : option Match * nat :=
  if (String.length s <? lastIndex)%nat then (None, O)
  else
    let p := seek None (units s) O lastIndex in
    match search r (before p) (rest p) (index p) with
    | Some m => (Some m, matchEnd m)
    | None => (None, O)
    end.

(** [match[0]] and [match[1]]. *)
Definition matched (s : string) (m : Match) : string :=
  substring (matchIndex m) (matchEnd m - matchIndex m) s.

Definition captured (s : string) (m : Match) : option string :=
  match group1 m with
  | Some (a, b) => Some (substring a (b - a) s)
  | None => None
  end.

(** Building blocks for writing patterns down. *)
Definition cat (rs : list regex) : regex := fold_right Seq Empty rs.

Definition only (c : ascii) : CharSet := Ascii.eqb c.

Definition oneOf (s : string) : CharSet :=
  fun c => existsb (Ascii.eqb c) (units s).

Definition union (a b : CharSet) : CharSet := fun c => a c || b c.

Definition lit (s : string) : regex :=
  cat (map (fun c => Char (only c)) (units s)).

Definition digit : CharSet := in_range 48 57.
Definition upper : CharSet := in_range 65 90.
Definition lower : CharSet := in_range 97 122.
Definition alnum : CharSet := union lower (union upper digit).
Definition space : CharSet := isWhiteSpace.

(** The canonical form of a code unit under the [i] flag: its upper-case
    form when that is again a single code unit of the same range. *)
Definition canonicalize (c : ascii) : ascii :=
  if in_range 97 122 c
     || (in_range 224 254 c && negb (code c =? 247)%N)
  then ascii_of_N (code c - 32)
  else c.

(** A character class under the [i] flag: it holds of a code unit when it
    holds of a code unit with the same canonical form. *)
Definition ignoreCase (cs : CharSet) : CharSet :=
  fun c => cs c || cs (canonicalize c) || cs (lowerUnit c).

Definition litI (s : string) : regex :=
  cat (map (fun c => Char (ignoreCase (only c))) (units s)).

(** The least number of code units a match consumes. *)
Definition repeatMin (min : nat) (max : option nat) : nat :=
  match max with Some mx => Nat.min min mx | None => min end.

Fixpoint minLen (r : regex) : nat :=
  match r with
  | Empty => 0
  | Char _ => 1
  | Repeat _ min max => repeatMin min max
  | Seq r1 r2 => minLen r1 + minLen r2
  | Alt r1 r2 => Nat.min (minLen r1) (minLen r2)
  | Optional _ => 0
  | WordBoundary => 0
  | Group r1 => minLen r1
  end.

(** Group 1 takes part in every match of the pattern. *)
Fixpoint definesGroup (r : regex) : bool :=
  match r with
  | Group _ => true
  | Seq r1 r2 => definesGroup r1 || definesGroup r2
  | Alt r1 r2 => definesGroup r1 && definesGroup r2
  | _ => false
  end.

End Regex.

Import Regex.

(* ================================================================== *)
(** ** The six patterns *)

(** [/\b(?:\+?\d{1,3}[-.\s]?)?(\(?\d{3}\)?[-.\s]?\d{3}[-.\s]?\d{4})\b/g] *)
Definition PHONE_NUMBER_REGEX : regex :=
  let sep := Repeat (union (oneOf "-.") space) 0 (Some 1) in
  cat [ WordBoundary;
        Optional (cat [ Repeat (only "+") 0 (Some 1);
                        Repeat digit 1 (Some 3);
                        sep ]);
        Group (cat [ Repeat (only "(") 0 (Some 1);
                     Repeat digit 3 (Some 3);
                     Repeat (only ")") 0 (Some 1);
                     sep;
                     Repeat digit 3 (Some 3);
                     sep;
                     Repeat digit 4 (Some 4) ]);
        WordBoundary ].

(** [/\b(?:\d{9,18}|[A-Z]{4}\d{7}[A-Z]\d{6})\b/g] *)
Definition BANK_ACCOUNT_REGEX : regex :=
  cat [ WordBoundary;
        Alt (Repeat digit 9 (Some 18))
            (cat [ Repeat upper 4 (Some 4);
                   Repeat digit 7 (Some 7);
                   Char upper;
                   Repeat digit 6 (Some 6) ]);
        WordBoundary ].

(** [/\b[a-zA-Z0-9.\-_]+@[a-zA-Z0-9.\-_]+\b/g] *)
Definition UPI_ID_REGEX : regex :=
  let part := Repeat (union alnum (oneOf ".-_")) 1 None in
  cat [ WordBoundary; part; Char (only "@"); part; WordBoundary ].

(** [/(https?:\/\/(?:www\.)?[-a-zA-Z0-9@:%._\+~#=]{1,256}\.[a-zA-Z0-9()]{1,6}\b(?:[-a-zA-Z0-9()@:%_\+.~#?&\/\/=]* ))/g]
    (written here with a blank before the closing parentheses) *)
Definition PHISHING_LINK_REGEX : regex :=
  Group
    (cat [ lit "http";
           Repeat (only "s") 0 (Some 1);
           lit "://";
           Optional (lit "www.");
           Repeat (union alnum (oneOf "-@:%._+~#=")) 1 (Some 256);
           Char (only ".");
           Repeat (union alnum (oneOf "()")) 1 (Some 6);
           WordBoundary;
           Repeat (union alnum (oneOf "-()@:%_+.~#?&/=")) 0 None ]).

(** [/\b[A-Za-z0-9._%+-]+@[A-Za-z0-9.-]+\.[A-Za-z]{2,}\b/g] *)
Definition EMAIL_ADDRESS_REGEX : regex :=
  cat [ WordBoundary;
        Repeat (union alnum (oneOf "._%+-")) 1 None;
        Char (only "@");
        Repeat (union alnum (oneOf ".-")) 1 None;
        Char (only ".");
        Repeat (union upper lower) 2 None;
        WordBoundary ].

(** [/\b(?:ID|Ref|Code|No)\s*[:#]\s*([a-zA-Z0-9]{4,15})\b/gi] *)
Definition GENERIC_ID_REGEX : regex :=
  cat [ WordBoundary;
        Alt (litI "ID") (Alt (litI "Ref") (Alt (litI "Code") (litI "No")));
        Repeat (ignoreCase space) 0 None;
        Char (ignoreCase (oneOf ":#"));
        Repeat (ignoreCase space) 0 None;
        Group (Repeat (ignoreCase alnum) 4 (Some 15));
        WordBoundary ].

(* ================================================================== *)
(** ** The state of the module: [lastIndex] of the six patterns *)

Inductive RegexId : Type :=
| PHONE_NUMBER
| BANK_ACCOUNT
| UPI_ID
| PHISHING_LINK
| EMAIL_ADDRESS
| GENERIC_ID.

Definition patternOf (id : RegexId) : regex :=
  match id with
  | PHONE_NUMBER => PHONE_NUMBER_REGEX
  | BANK_ACCOUNT => BANK_ACCOUNT_REGEX
  | UPI_ID => UPI_ID_REGEX
  | PHISHING_LINK => PHISHING_LINK_REGEX
  | EMAIL_ADDRESS => EMAIL_ADDRESS_REGEX
  | GENERIC_ID => GENERIC_ID_REGEX
  end.

Record RegexState : Type := {
  phoneLastIndex : nat;
  bankLastIndex : nat;
  upiLastIndex : nat;
  linkLastIndex : nat;
  emailLastIndex : nat;
  genericLastIndex : nat
}.

(** The state when the module has just been loaded. *)
Definition initialState : RegexState :=
  {| phoneLastIndex := 0; bankLastIndex := 0; upiLastIndex := 0;
     linkLastIndex := 0; emailLastIndex := 0; genericLastIndex := 0 |}.

Definition getLastIndex (id : RegexId) (st : RegexState) : nat :=
  match id with
  | PHONE_NUMBER => phoneLastIndex st
  | BANK_ACCOUNT => bankLastIndex st
  | UPI_ID => upiLastIndex st
  | PHISHING_LINK => linkLastIndex st
  | EMAIL_ADDRESS => emailLastIndex st
  | GENERIC_ID => genericLastIndex st
  end.

Definition setLastIndex (id : RegexId) (n : nat) (st : RegexState) : RegexState :=
  match st with
  | Build_RegexState p b u l e g =>
      match id with
      | PHONE_NUMBER => Build_RegexState n b u l e g
      | BANK_ACCOUNT => Build_RegexState p n u l e g
      | UPI_ID => Build_RegexState p b n l e g
      | PHISHING_LINK => Build_RegexState p b u n e g
      | EMAIL_ADDRESS => Build_RegexState p b u l n g
      | GENERIC_ID => Build_RegexState p b u l e n
      end
  end.

(** Computations over the module state; [None] is a loop that has not come
    to its end within the allotted number of turns. *)
Definition M (A : Type) : Type := RegexState -> option (A * RegexState).

Definition ret {A : Type} (a : A) : M A := fun st => Some (a, st).

Definition bind {A B : Type} (c : M A) (k : A -> M B) : M B :=
  fun st =>
    match c st with
    | Some (a, st') => k a st'
    | None => None
    end.

Definition outOfFuel {A : Type} : M A := fun _ => None.

Notation "x <- c ;; k" := (bind c (fun x => k))
  (at level 61, c at next level, right associativity).

(** [REGEX.exec(message)] on the shared pattern [id]. *)
Definition execM (id : RegexId) (message : string) : M (option Match) :=
  fun st =>
    let '(m, lastIndex) := exec (patternOf id) message (getLastIndex id st) in
    Some (m, setLastIndex id lastIndex st).

(** [while ((match = REGEX.exec(message)) !== null) set.add(value(match))]. *)
Fixpoint while (fuel : nat) (id : RegexId) (message : string)
    (value : Match -> string) (set : JsSet) : M JsSet :=
  match fuel with
  | O => outOfFuel
  | S fuel' =>
      m <- execM id message ;;
      match m with
      | Some mt => while fuel' id message value (Set_add set (value mt))
      | None => ret set
      end
  end.

(** [s.replace(/[-\s()]/g, '')], for the class given as [cs]. *)
Definition removeAll (cs : CharSet) (s : string) : string :=
  string_of_list_ascii (filter (fun c => negb (cs c)) (units s)).

(** The class [[-\s()]] of the phone normalisation. *)
Definition phoneNoise : CharSet := union (oneOf "-()") space.

(* ================================================================== *)
(** ** extractIntelligence *)

Definition extractIntelligence (message : string) : M ExtractedIntelligence :=
  let turns := S (String.length message) in
  let whole := matched message in
  (* match[1]; group 1 takes part in every match of GENERIC_ID_REGEX, so
     the second branch is never taken (see generic_token_defined) *)
  let token m :=
    match captured message m with Some t => t | None => "undefined" end in
  phones <- while turns PHONE_NUMBER message
                  (fun m => removeAll phoneNoise (whole m)) [] ;;
  banks <- while turns BANK_ACCOUNT message whole [] ;;
  upis <- while turns UPI_ID message whole [] ;;
  links <- while turns PHISHING_LINK message whole [] ;;
  emails <- while turns EMAIL_ADDRESS message whole [] ;;
  others <- while turns GENERIC_ID message token [] ;;
  ret {| phoneNumbers := phones;
         bankAccounts := banks;
         upiIds := upis;
         phishingLinks := links;
         emailAddresses := emails;
         otherIds := others |}.

(* ================================================================== *)
(** ** The scorer in the words of the specification *)

(** The category of extracted values that corresponds to a key of
    [fakeData]: the five planted kinds name their plural category, a
    category name stands for itself, any other key has none. *)
Definition correspondingCategory (extracted : Intelligence (list string))
    (fakeKey : string) : list string :=
  if (fakeKey =? "bankAccount")%string || (fakeKey =? "bankAccounts")%string
  then bankAccounts extracted
  else if (fakeKey =? "upiId")%string || (fakeKey =? "upiIds")%string
  then upiIds extracted
  else if (fakeKey =? "phoneNumber")%string || (fakeKey =? "phoneNumbers")%string
  then phoneNumbers extracted
  else if (fakeKey =? "phishingLink")%string || (fakeKey =? "phishingLinks")%string
  then phishingLinks extracted
  else if (fakeKey =? "emailAddress")%string || (fakeKey =? "emailAddresses")%string
  then emailAddresses extracted
  else if (fakeKey =? "otherIds")%string
  then otherIds extracted
  else [].

(** A planted value that is defined and non-empty, and that occurs inside
    some extracted value of its category. *)
Definition plantedFound (extracted : Intelligence (list string))
    (entry : string * option string) : bool :=
  match snd entry with
  | Some planted =>
      negb (planted =? "")%string
      && existsb (fun v => includes v planted)
                 (correspondingCategory extracted (fst entry))
  | None => false
  end.

(** Ten points for each planted value found, clamped to 40. *)
Definition intelligenceScore (extracted : Intelligence (list string))
    (fakeData : list (string * option string)) : Q :=
  Qmin (inject_Z (10 * Z.of_nat (length (filter (plantedFound extracted) fakeData))))
       40%Q.

(** The caps of the four dimensions and of their sum. *)
Definition withinCaps (s : ScoreBreakdown) : Prop :=
  (0 <= intelligenceExtraction s <= 40)%Q
  /\ (0 <= responseStructure s <= 20)%Q
  /\ (0 <= engagementQuality s <= 20)%Q
  /\ (scamDetection s = 0%Q \/ scamDetection s = 20%Q)
  /\ (0 <= total s <= 100)%Q.

(** The five required properties are on the object. *)
Definition allRequiredPresent (finalOutput : FinalOutput) : Prop :=
  Forall (fun field => hasField finalOutput field = true) requiredFields.

(* ================================================================== *)
(** ** A sample session *)

Definition sampleScenario : Scenario :=
  {| id := "bank_fraud";
     name := "Bank fraud";
     description := "A caller asks for a transfer to a safe account";
     fakeData := [("bankAccount", Some "123456789012")] |}.

Definition sampleMessage (who : Sender) (what : string) : ConversationMessage :=
  {| sender := who; text := what; timestamp := "2026-01-01T00:00:00Z";
     type := who |}.

Definition sampleHistory : list ConversationMessage :=
  [ sampleMessage SCAMMER "URGENT: your account is blocked";
    sampleMessage HONEYPOT "Oh dear, what should I do?";
    sampleMessage SCAMMER "Transfer the balance to a safe account";
    sampleMessage HONEYPOT "Which account would that be?";
    sampleMessage SCAMMER "Account no 123456789012";
    sampleMessage HONEYPOT "Let me find my card" ].

Definition sampleIntelligence : ExtractedIntelligence :=
  {| phoneNumbers := ["123456789012"];
     bankAccounts := ["123456789012"];
     upiIds := [];
     phishingLinks := [];
     emailAddresses := [];
     otherIds := [] |}.

Definition sampleOutput : FinalOutput :=
  createFinalOutput "session-1" sampleHistory true sampleIntelligence
                    (Fin 90%Q) "" sampleScenario.

Definition sampleMetrics : EngagementMetrics.t :=
  {| EngagementMetrics.totalMessagesExchanged := Some (ofNat 6);
     EngagementMetrics.engagementDurationSeconds := Some (Fin 90%Q) |}.

(* ================================================================== *)
(** ** The reply path: types *)

(** [MessagePart], [Metadata], [APIRequest] and [APIResponse] as the type
    declarations of the sources have them. *)
Module MessagePart.
Record t : Type := {
  sender : Sender;
  text : string;
  timestamp : string
}.
End MessagePart.

Module Metadata.
Record t : Type := {
  channel : string;
  language : string;
  locale : string;
  others : list (string * string)
}.
End Metadata.

Module APIRequest.
Record t : Type := {
  sessionId : string;
  message : MessagePart.t;
  conversationHistory : list MessagePart.t;
  metadata : Metadata.t
}.
End APIRequest.

Inductive Status : Type := success | error.

Module APIResponse.
Record t : Type := {
  status : Status;
  reply : option string;
  message : option string;
  text : option string;
  error : option string
}.
End APIResponse.

(** A call that returns a value or throws an [Error] with a message (for an
    [async] function: a promise that resolves or rejects). *)
Inductive outcome (A : Type) : Type :=
| Returned (a : A)
| Thrown (message : string).

Arguments Returned {A} a.
Arguments Thrown {A} message.

(** The argument of [ai.models.generateContent]: the model name, the texts
    of [contents.parts] and the [config] object. *)
Record GenerateContentParameters : Type := {
  model : string;
  parts : list string;
  systemInstruction : string;
  temperature : Q;
  topP : Q;
  topK : nat;
  maxOutputTokens : nat
}.

(** The string value of a member of the [Sender] enumeration. *)
Definition senderString (s : Sender) : string :=
  match s with
  | SCAMMER => "scammer"
  | HONEYPOT => "honeypot"
  | USER => "user"
  end.

Definition Sender_eqb (a b : Sender) : bool :=
  match a, b with
  | SCAMMER, SCAMMER | HONEYPOT, HONEYPOT | USER, USER => true
  | _, _ => false
  end.

Definition newline : string := String (ascii_of_nat 10) EmptyString.

(** [parts.join(sep)]. *)
Fixpoint join (sep : string) (xs : list string) : string :=
  match xs with
  | [] => ""
  | [x] => x
  | x :: rest => (x ++ sep ++ join sep rest)%string
  end.

(* ================================================================== *)
(** ** The reply path: callGemini, generateHoneypotReply,
       handleHoneypotApiRequest

    The Gemini service is outside the program: [generateContent] stands for
    [new GoogleGenAI({ apiKey }).models.generateContent], which answers a
    request with the [text] of its response (possibly [undefined]) or
    throws.  [API_KEY] and [SYSTEM_INSTRUCTION] are the constants of
    [geminiService.ts] and [constants.ts]; the code only tests the one for
    truthiness and passes the other on.  Each function returns, beside its
    result, the requests it has sent to the service, in order.  Writing to
    the console is left out. *)

Section ReplyPath.

Variable API_KEY : string.
Variable SYSTEM_INSTRUCTION : string.
Variable generateContent :
  string -> GenerateContentParameters -> outcome (option string).

Definition emptyReplyText : string :=
  "I'm sorry, I seem to be having trouble understanding. Can you please rephrase?".

Definition serviceErrorText : string :=
  "I apologize, I encountered an issue. Could you please repeat that?".

Definition technicalDifficultiesText : string :=
  "I am experiencing some technical difficulties. Could you please provide that information again?".

(** [createGeminiClient]: the key the client is made with, unless the key is
    empty. *)
Definition createGeminiClient : outcome string :=
  if negb (JsString.truthy API_KEY)
  then Thrown "API_KEY is not defined. Please ensure the API key is set."
  else Returned API_KEY.

Definition callGemini (history : list ConversationMessage)
    (latestScammerMessage : string) (systemInstruction : string)
    : outcome string * list GenerateContentParameters :=
  (* try *)
  let body : outcome string * list GenerateContentParameters :=
    match createGeminiClient with
    | Thrown e => (Thrown e, [])
    | Returned ai =>
        let conversationParts :=
          map (fun msg => (senderString (sender msg) ++ ": " ++ text msg)%string)
              history in
        let conversationParts :=
          conversationParts
          ++ [(senderString SCAMMER ++ ": " ++ latestScammerMessage)%string] in
        let request :=
          {| model := "gemini-flash-latest";
             parts := map (fun part => part) conversationParts;
             systemInstruction := systemInstruction;
             temperature := (8 # 10)%Q;
             topP := (9 # 10)%Q;
             topK := 40;
             maxOutputTokens := 200 |} in
        match generateContent ai request with
        | Thrown e => (Thrown e, [request])
        | Returned response_text =>
            match response_text with
            | Some t =>
                if negb (JsString.truthy t)
                then (Returned emptyReplyText, [request])
                else (Returned t, [request])
            | None => (Returned emptyReplyText, [request])
            end
        end
    end in
  (* catch *)
  match body with
  | (Returned reply, sent) => (Returned reply, sent)
  | (Thrown _, sent) => (Returned serviceErrorText, sent)
  end.

Definition generateHoneypotReply (conversationHistory : list ConversationMessage)
    (latestScammerMessage : string)
    : outcome string * list GenerateContentParameters :=
  let historyForGemini :=
    filter (fun msg => negb (Sender_eqb (sender msg) USER)) conversationHistory in
  let fullConversationContext :=
    join newline
      (map (fun msg =>
              ((if Sender_eqb (sender msg) SCAMMER then "Scammer" else "Honeypot")
               ++ ": " ++ text msg)%string)
           historyForGemini) in
  let currentPrompt :=
    ("Conversation so far:" ++ newline ++ fullConversationContext ++ newline
     ++ "Scammer: " ++ latestScammerMessage ++ newline ++ "Honeypot:")%string in
  (* try *)
  match callGemini historyForGemini latestScammerMessage SYSTEM_INSTRUCTION with
  | (Returned reply, sent) => (Returned reply, sent)
  (* catch *)
  | (Thrown _, sent) => (Returned technicalDifficultiesText, sent)
  end.

Definition handleHoneypotApiRequest (request : APIRequest.t)
    : APIResponse.t * list GenerateContentParameters :=
  let message := APIRequest.message request in
  let conversationHistory := APIRequest.conversationHistory request in
  let fullConversationHistory : list ConversationMessage :=
    map (fun msg =>
           {| sender := MessagePart.sender msg;
              text := MessagePart.text msg;
              timestamp := MessagePart.timestamp msg;
              type := MessagePart.sender msg |})
        conversationHistory
    ++ [ {| sender := MessagePart.sender message;
            text := MessagePart.text message;
            timestamp := MessagePart.timestamp message;
            type := MessagePart.sender message |} ] in
  match generateHoneypotReply fullConversationHistory (MessagePart.text message) with
  | (Returned honeypotReplyText, sent) =>
      ({| APIResponse.status := success;
          APIResponse.reply := Some honeypotReplyText;
          APIResponse.message := Some honeypotReplyText;
          APIResponse.text := Some honeypotReplyText;
          APIResponse.error := None |}, sent)
  | (Thrown e, sent) =>
      ({| APIResponse.status := error;
          APIResponse.reply := None;
          APIResponse.message :=
            Some "An unexpected error occurred. Please try again later.";
          APIResponse.text := None;
          APIResponse.error :=
            Some (if JsString.truthy e then e
                  else "An unexpected error occurred while processing the request.") |},
       sent)
  end.

End ReplyPath.

(* ================================================================== *)
(** ** Vocabulary for the shape of a match *)

(** The code units a pattern can consume at all. *)
Fixpoint alphabet (r : regex) : CharSet :=
  match r with
  | Empty => fun _ => false
  | Char cs => cs
  | Repeat cs _ _ => cs
  | Seq r1 r2 => union (alphabet r1) (alphabet r2)
  | Alt r1 r2 => union (alphabet r1) (alphabet r2)
  | Optional r1 => alphabet r1
  | WordBoundary => fun _ => false
  | Group r1 => alphabet r1
  end.

Definition addMax (a b : option nat) : option nat :=
  match a, b with
  | Some x, Some y => Some (x + y)
  | _, _ => None
  end.

Definition maxMax (a b : option nat) : option nat :=
  match a, b with
  | Some x, Some y => Some (Nat.max x y)
  | _, _ => None
  end.

(** The greatest number of code units a match consumes, if there is one. *)
Fixpoint maxLen (r : regex) : option nat :=
  match r with
  | Empty => Some 0
  | Char _ => Some 1
  | Repeat _ _ max => max
  | Seq r1 r2 => addMax (maxLen r1) (maxLen r2)
  | Alt r1 r2 => maxMax (maxLen r1) (maxLen r2)
  | Optional r1 => maxLen r1
  | WordBoundary => Some 0
  | Group r1 => maxLen r1
  end.

Definition fits (max : option nat) (n : nat) : Prop :=
  match max with Some mx => n <= mx | None => True end.

(** [seg] is the part of [s] from index [a] up to index [b]. *)
Definition located (s : list ascii) (a b : nat) (seg : list ascii) : Prop :=
  exists pre post, s = pre ++ seg ++ post /\ length pre = a /\ b = a + length seg.

(** The position [p] is a position of the text [s]. *)
Definition wfPos (s : list ascii) (p : Pos) : Prop :=
  exists pre, s = pre ++ rest p /\ length pre = index p.

(** What a match of [r] consumes: within the alphabet of [r], and of a
    length [r] allows. *)
Definition consumable (r : regex) (seg : list ascii) : Prop :=
  Forall (fun c => alphabet r c = true) seg
  /\ minLen r <= length seg
  /\ fits (maxLen r) (length seg).

(** The capture, when there is one, is a part of [s] that satisfies [Q]. *)
Definition capInv (s : list ascii) (Q : list ascii -> Prop) (cap : Capture)
    : Prop :=
  match cap with
  | None => True
  | Some (a, b) => exists seg, located s a b seg /\ Q seg
  end.

(** [Q] holds of whatever a capture group of [r] can consume. *)
Fixpoint groupOK (Q : list ascii -> Prop) (r : regex) : Prop :=
  match r with
  | Group r1 => forall seg, consumable r1 seg -> Q seg
  | Seq r1 r2 => groupOK Q r1 /\ groupOK Q r2
  | Alt r1 r2 => groupOK Q r1 /\ groupOK Q r2
  | Optional r1 => groupOK Q r1
  | _ => True
  end.

(** A match of [r] in the text [s]: [match[0]] is a part of the text that
    [r] can consume, and the capture satisfies [Q]. *)
Definition matchSpec (r : regex) (s : list ascii) (Q : list ascii -> Prop)
    (m : Match) : Prop :=
  (exists seg, located s (matchIndex m) (matchEnd m) seg /\ consumable r seg)
  /\ capInv s Q (group1 m).

(** Every code unit of the string is in the class. *)
Definition allIn (cs : CharSet) (s : string) : bool := forallb cs (units s).

(* ================================================================== *)
(** ** Vocabulary for the scorer *)

(** The entry has a planted value that is defined and non-empty. *)
Definition plantedDefined (entry : string * option string) : bool :=
  match snd entry with
  | Some planted => JsString.truthy planted
  | None => false
  end.

(** Every category of [a] is contained in the same category of [b]. *)
Definition containedIn (a b : Intelligence (list string)) : Prop :=
  incl (phoneNumbers a) (phoneNumbers b)
  /\ incl (bankAccounts a) (bankAccounts b)
  /\ incl (upiIds a) (upiIds b)
  /\ incl (phishingLinks a) (phishingLinks b)
  /\ incl (emailAddresses a) (emailAddresses b)
  /\ incl (otherIds a) (otherIds b).

(** The final output with its extracted intelligence replaced. *)
Definition withExtracted (finalOutput : FinalOutput)
    (extracted : Intelligence (list string)) : FinalOutput :=
  {| sessionId := sessionId finalOutput;
     scamDetected := scamDetected finalOutput;
     totalMessagesExchanged := totalMessagesExchanged finalOutput;
     extractedIntelligence := Some extracted;
     engagementMetrics := engagementMetrics finalOutput;
     agentNotes := agentNotes finalOutput |}.

(* ================================================================== *)
(** ** A sample service and request *)

Definition sampleService (key : string) (request : GenerateContentParameters)
    : outcome (option string) :=
  Returned (Some "Oh dear, which account would that be?").

Definition sampleRequest : APIRequest.t :=
  {| APIRequest.sessionId := "session-1";
     APIRequest.message :=
       {| MessagePart.sender := SCAMMER;
          MessagePart.text := "Account no 123456789012";
          MessagePart.timestamp := "2026-01-01T00:00:04Z" |};
     APIRequest.conversationHistory :=
       [ {| MessagePart.sender := SCAMMER;
            MessagePart.text := "URGENT: your account is blocked";
            MessagePart.timestamp := "2026-01-01T00:00:00Z" |};
         {| MessagePart.sender := USER;
            MessagePart.text := "operator note";
            MessagePart.timestamp := "2026-01-01T00:00:01Z" |};
         {| MessagePart.sender := HONEYPOT;
            MessagePart.text := "Oh dear, what should I do?";
            MessagePart.timestamp := "2026-01-01T00:00:02Z" |} ];
     APIRequest.metadata :=
       {| Metadata.channel := "SMS";
          Metadata.language := "English";
          Metadata.locale := "IN";
          Metadata.others := [] |} |}.

(** The text a message is sent to the service as. *)
Definition partOf (msg : MessagePart.t) : string :=
  (senderString (MessagePart.sender msg) ++ ": " ++ MessagePart.text msg)%string.

(* ================================================================== *)
(** ** A sample message *)

Definition sampleText : string :=
  "Ref: AB12CD call 415.555.2671 acct 123456789012 pay a.b@upi.co see http://bit.ly/x1".

Definition sampleExtraction : ExtractedIntelligence :=
  {| phoneNumbers := ["415.555.2671"; "123456789012"];
     bankAccounts := ["123456789012"];
     upiIds := ["a.b@upi.co"];
     phishingLinks := ["http://bit.ly/x1"];
     emailAddresses := ["a.b@upi.co"];
     otherIds := ["AB12CD"] |}.

Definition noExtraction : ExtractedIntelligence :=
  {| phoneNumbers := []; bankAccounts := []; upiIds := [];
     phishingLinks := []; emailAddresses := []; otherIds := [] |}.

Definition twoPlanted : Scenario :=
  {| id := "two"; name := "Two planted values"; description := "";
     fakeData := [("bankAccount", Some "123456789012");
                  ("upiId", Some "a.b@upi.co")] |}.

Definition twoPlantedSwapped : Scenario :=
  {| id := "two"; name := "Two planted values"; description := "";
     fakeData := [("upiId", Some "a.b@upi.co");
                  ("bankAccount", Some "123456789012")] |}.

(* ################################################################## *)
(** * Properties *)

(* ================================================================== *)
(** ** Facts about strings *)

Section StringFacts.

Lemma startsWith_app (s t : string) :
  startsWith s t = true <-> exists b, s = (t ++ b)%string.
Proof.
  revert s; induction t as [|c t IH]; intros s.
  - simpl. split; [intros _; now exists s | reflexivity].
  - destruct s as [|d s]; simpl.
    + split; [discriminate | intros [b Hb]; discriminate].
    + rewrite andb_true_iff, Ascii.eqb_eq, IH. split.
      * intros [-> [b ->]]. now exists b.
      * intros [b Hb]. inversion Hb. split; [reflexivity | now exists b].
Qed.

(** [includes] is the substring relation. *)
Lemma includes_spec (s t : string) :
  includes s t = true <-> exists a b, s = (a ++ t ++ b)%string.
Proof.
  induction s as [|c s IH]; simpl.
  - destruct (startsWith "" t) eqn:Hp.
    + split; [intros _|reflexivity].
      apply startsWith_app in Hp. destruct Hp as [b Hb]. now exists "", b.
    + split; [discriminate|].
      intros (a & b & Hab). destruct a; simpl in Hab.
      * assert (startsWith "" t = true) by (apply startsWith_app; now exists b).
        congruence.
      * discriminate.
  - destruct (startsWith (String c s) t) eqn:Hp.
    + split; [intros _|reflexivity].
      apply startsWith_app in Hp. destruct Hp as [b Hb]. now exists "", b.
    + rewrite IH. split.
      * intros (a & b & Hab). exists (String c a), b. simpl. now rewrite Hab.
      * intros (a & b & Hab). destruct a as [|d a]; simpl in Hab.
        -- assert (startsWith (String c s) t = true)
             by (apply startsWith_app; now exists b).
           congruence.
        -- inversion Hab. now exists a, b.
Qed.

(** A non-empty substring starts with a code unit of the string. *)
Lemma includes_head (s t : string) (c : ascii) :
  includes s (String c t) = true -> In c (units s).
Proof.
  induction s as [|d s IH]; simpl.
  - discriminate.
  - destruct (Ascii.eqb c d) eqn:Hcd.
    + apply Ascii.eqb_eq in Hcd. subst. intros _. now left.
    + simpl. intros H. right. now apply IH.
Qed.

Lemma lowerUnit_whitespace (c : ascii) :
  isWhiteSpace c = true -> lowerUnit c = c.
Proof.
  destruct c as [[] [] [] [] [] [] [] []]; vm_compute; congruence.
Qed.

Lemma toLowerCase_whitespace (s : string) :
  isWhitespaceOnly s = true -> toLowerCase s = s.
Proof.
  unfold isWhitespaceOnly, units.
  induction s as [|c s IH]; simpl; [reflexivity|].
  intros H. apply andb_true_iff in H. destruct H as [Hc Hs].
  now rewrite lowerUnit_whitespace, IH.
Qed.

End StringFacts.

(* ================================================================== *)
(** ** Properties of the keyword classifier *)

(** Every keyword is already in lower case, so lowering it is a no-op. *)
Lemma SCAM_KEYWORDS_lower :
  Forall (fun kw => toLowerCase kw = kw) SCAM_KEYWORDS.
Proof. repeat constructor. Qed.

(** Every keyword starts with a code unit that is not white space. *)
Lemma SCAM_KEYWORDS_visible :
  Forall (fun kw => startsVisible kw = true) SCAM_KEYWORDS.
Proof. repeat constructor. Qed.

(** C4. Once the flag is set, [detectScam] answers [true] for every
    message text: the scam flag is a one-way latch. *)
Theorem detectScam_latch (messageText : string) :
  detectScam messageText true = true.
Proof. reflexivity. Qed.

(** C5. With the flag unset, [detectScam] answers [true] exactly when the
    lower-cased message text contains one of the phrases of
    [SCAM_KEYWORDS] as a substring; an empty or white-space-only message
    text yields [false]. *)
Theorem detectScam_unset_iff_keyword (messageText : string) :
  (detectScam messageText false = true <->
   exists kw, In kw SCAM_KEYWORDS /\
              includes (toLowerCase messageText) kw = true)
  /\ (isWhitespaceOnly messageText = true ->
      detectScam messageText false = false).
Proof.
  assert (Hiff : detectScam messageText false = true <->
                 exists kw, In kw SCAM_KEYWORDS /\
                            includes (toLowerCase messageText) kw = true).
  { unfold detectScam. rewrite existsb_exists.
    pose proof SCAM_KEYWORDS_lower as HL. rewrite Forall_forall in HL.
    split; intros (kw & Hin & Hinc); exists kw; split; trivial.
    - now rewrite (HL kw Hin) in Hinc.
    - now rewrite (HL kw Hin). }
  split; [exact Hiff|].
  intros Hws. apply not_true_is_false. intros Hd.
  apply Hiff in Hd. destruct Hd as (kw & Hin & Hinc).
  rewrite (toLowerCase_whitespace _ Hws) in Hinc.
  pose proof SCAM_KEYWORDS_visible as HV. rewrite Forall_forall in HV.
  specialize (HV kw Hin). destruct kw as [|c kw]; [discriminate|].
  apply includes_head in Hinc.
  unfold isWhitespaceOnly in Hws. rewrite forallb_forall in Hws.
  specialize (Hws c Hinc). simpl in HV. rewrite Hws in HV. discriminate.
Qed.

Lemma detectScam_unset_blank_witness : detectScam "   " false = false.
Proof.
  apply (proj2 (detectScam_unset_iff_keyword "   ")). reflexivity.
Defined.


(* ================================================================== *)
(** ** Properties of the scorer *)

Section ScorerFacts.

Variable extracted : Intelligence (list string).

(** The two-step lookup of the code, [keyMapping[fakeKey] || fakeKey] and
    then [extracted[outputKey] || []], finds the corresponding category. *)
Lemma lookup_correspondingCategory (fakeKey : string) :
  match getProperty extracted
          (match keyMapping fakeKey with Some k => k | None => fakeKey end)
  with Some vs => vs | None => [] end
  = correspondingCategory extracted fakeKey.
Proof.
  unfold keyMapping, getProperty, correspondingCategory.
  repeat match goal with
         | |- context [String.eqb fakeKey ?l] =>
             destruct (String.eqb_spec fakeKey l); [subst; reflexivity|]
         end.
  reflexivity.
Qed.

Lemma truthy_nonempty (s : string) :
  JsString.truthy s = negb (s =? "")%string.
Proof. destruct s; reflexivity. Qed.

Lemma Qplus_inject_Z (z w : Z) :
  (inject_Z z + inject_Z w)%Q = inject_Z (z + w).
Proof.
  unfold Qplus, inject_Z; simpl. f_equal. lia.
Qed.

(** One turn of the loop adds ten exactly when the planted value is found. *)
Lemma scoreEntry_found (z : Z) (entry : string * option string) :
  scoreEntry (Some extracted) (inject_Z z) entry
  = Ok (inject_Z (if plantedFound extracted entry then z + 10 else z)).
Proof.
  destruct entry as [fakeKey [planted|]]; unfold scoreEntry, plantedFound; simpl;
    [|reflexivity].
  rewrite truthy_nonempty, lookup_correspondingCategory.
  destruct (planted =? "")%string; simpl; [reflexivity|].
  destruct (existsb _ _); [|reflexivity].
  change 10%Q with (inject_Z 10). now rewrite Qplus_inject_Z.
Qed.

Lemma scoreEntries_count (entries : list (string * option string)) (z : Z) :
  scoreEntries (Some extracted) entries (inject_Z z)
  = Ok (inject_Z
          (z + 10 * Z.of_nat (length (filter (plantedFound extracted) entries)))).
Proof.
  revert z; induction entries as [|entry entries IH]; intros z;
    cbn [scoreEntries filter].
  - cbn [length]. do 2 f_equal. lia.
  - rewrite scoreEntry_found, IH.
    destruct (plantedFound extracted entry); cbn [length]; do 2 f_equal; lia.
Qed.

End ScorerFacts.

(** Without the [extractedIntelligence] object the loop throws at the first
    planted value that is defined and non-empty, and otherwise leaves the
    score as it is. *)
Lemma scoreEntries_undefined (entries : list (string * option string)) (q : Q) :
  scoreEntries None entries q = Ok q \/ scoreEntries None entries q = TypeError.
Proof.
  induction entries as [|[fakeKey [planted|]] entries IH]; simpl; auto.
  destruct (JsString.truthy planted); auto.
Qed.

Lemma Qmin_cap (n : nat) (c : Z) :
  (0 <= c)%Z ->
  (0 <= Qmin (inject_Z (10 * Z.of_nat n)) (inject_Z c) <= inject_Z c)%Q.
Proof.
  intros Hc. split.
  - apply Q.min_glb; unfold Qle, inject_Z; cbn [Qnum Qden]; lia.
  - apply Q.le_min_r.
Qed.

(** The intelligence score after the clamp, whatever the loop returned. *)
Lemma intelligence_cap (ex : option (Intelligence (list string)))
    (entries : list (string * option string)) (raw : Q) :
  scoreEntries ex entries 0%Q = Ok raw ->
  (0 <= Qmin raw 40 <= 40)%Q.
Proof.
  destruct ex as [extracted|].
  - change 0%Q with (inject_Z 0). rewrite scoreEntries_count.
    intros H; inversion H; subst. apply (Qmin_cap _ 40). lia.
  - destruct (scoreEntries_undefined entries 0%Q) as [E|E]; rewrite E;
      intros H; inversion H; subst.
    split; [apply Q.min_glb | apply Q.le_min_r]; unfold Qle; simpl; lia.
Qed.

Lemma caps_from_parts (a b c d : Q) :
  a = 0%Q \/ a = 20%Q ->
  (0 <= b <= 40)%Q -> (0 <= c <= 20)%Q -> (0 <= d <= 20)%Q ->
  withinCaps {| scamDetection := a;
                intelligenceExtraction := b;
                engagementQuality := c;
                responseStructure := d;
                total := (a + b + c + d)%Q |}.
Proof.
  intros Ha Hb Hc Hd. unfold withinCaps; cbn [scamDetection
    intelligenceExtraction engagementQuality responseStructure total].
  repeat split; try tauto; destruct Ha as [-> | ->]; lra.
Qed.

Ltac split_ifs :=
  repeat match goal with
         | |- context [if ?b then _ else _] => destruct b
         end.

Ltac concrete_Qle := unfold Qle; simpl; lia.

(** C1. Whenever [evaluateFinalOutput] returns, the intelligence score lies
    in [0,40], the response-structure and engagement scores in [0,20], the
    scam-detection score is 0 or 20 and the total lies in [0,100]; and it
    returns unless the [extractedIntelligence] or the [engagementMetrics]
    object is missing from the final output. *)
Theorem evaluateFinalOutput_caps (finalOutput : FinalOutput)
    (scenario : Scenario) (conversationHistory : list ConversationMessage) :
  match evaluateFinalOutput finalOutput scenario conversationHistory with
  | Ok s => withinCaps s
  | TypeError =>
      extractedIntelligence finalOutput = None
      \/ engagementMetrics finalOutput = None
  end.
Proof.
  unfold evaluateFinalOutput. cbv zeta.
  destruct (scoreEntries _ _ _) as [raw|] eqn:E.
  - destruct (engagementMetrics finalOutput) as [metrics|]; [|now right].
    apply caps_from_parts.
    + destruct (fieldTruthy finalOutput K_scamDetected); auto.
    + exact (intelligence_cap _ _ _ E).
    + split_ifs; split; concrete_Qle.
    + cbn [fold_left requiredFields optionalFields].
      split; [|apply Q.le_min_r].
      apply Q.min_glb; [|concrete_Qle].
      split_ifs; concrete_Qle.
  - left. destruct (extractedIntelligence finalOutput) as [extracted|];
      [|reflexivity].
    change 0%Q with (inject_Z 0) in E. rewrite scoreEntries_count in E.
    discriminate.
Qed.

(** C2. For a final output that carries its [extractedIntelligence] and
    [engagementMetrics], the intelligence score of [evaluateFinalOutput] is
    ten points for each defined, non-empty planted value of [fakeData] that
    occurs inside some extracted value of its corresponding category, summed
    and clamped to 40; entries without a planted value add nothing. *)
Theorem intelligenceExtraction_counts_planted (finalOutput : FinalOutput)
    (scenario : Scenario) (conversationHistory : list ConversationMessage)
    (extracted : Intelligence (list string)) (metrics : EngagementMetrics.t) :
  extractedIntelligence finalOutput = Some extracted ->
  engagementMetrics finalOutput = Some metrics ->
  exists s,
    evaluateFinalOutput finalOutput scenario conversationHistory = Ok s
    /\ intelligenceExtraction s = intelligenceScore extracted (fakeData scenario).
Proof.
  intros Hex Hm. unfold evaluateFinalOutput. cbv zeta.
  rewrite Hex, Hm. change 0%Q with (inject_Z 0).
  rewrite scoreEntries_count.
  eexists; split; reflexivity.
Qed.

Lemma allRequiredPresent_inv (finalOutput : FinalOutput) :
  allRequiredPresent finalOutput ->
  fold_left
    (fun acc field => if hasField finalOutput field then (acc + 5)%Q else acc)
    requiredFields 0%Q = 25%Q
  /\ (exists extracted, extractedIntelligence finalOutput = Some extracted)
  /\ (exists metrics, engagementMetrics finalOutput = Some metrics).
Proof.
  unfold allRequiredPresent, requiredFields. intros H.
  repeat match goal with
         | H : Forall _ (_ :: _) |- _ =>
             let Hh := fresh "Hh" in
             apply Forall_cons_iff in H; destruct H as [Hh H]
         end.
  cbn [fold_left]. rewrite Hh, Hh0, Hh1, Hh2, Hh3.
  split; [reflexivity|].
  cbn [hasField] in Hh1, Hh2.
  destruct (extractedIntelligence finalOutput); [|discriminate].
  destruct (engagementMetrics finalOutput); [|discriminate].
  split; eexists; reflexivity.
Qed.

Lemma gt_Fin (q c : Q) (b : Q) :
  (q == c)%Q -> gt (Fin q) b = negb (Qle_bool c b).
Proof.
  intros H. unfold gt. f_equal.
  destruct (Qle_bool c b) eqn:E.
  - apply Qle_bool_iff. apply Qle_bool_iff in E. now rewrite H.
  - apply not_true_is_false. intros E'. apply Qle_bool_iff in E'.
    rewrite H in E'. apply Qle_bool_iff in E'. congruence.
Qed.

Lemma ge_Fin (q c : Q) (b : Q) :
  (q == c)%Q -> ge (Fin q) b = Qle_bool b c.
Proof.
  intros H. unfold ge.
  destruct (Qle_bool b c) eqn:E.
  - apply Qle_bool_iff. apply Qle_bool_iff in E. now rewrite H.
  - apply not_true_is_false. intros E'. apply Qle_bool_iff in E'.
    rewrite H in E'. apply Qle_bool_iff in E'. congruence.
Qed.

Lemma orZero_Fin (q c : Q) :
  (q == c)%Q -> ~ (c == 0)%Q -> orZero (Some (Fin q)) = Fin q.
Proof.
  intros H Hc. unfold orZero, JsNumber.truthy.
  destruct (Qeq_bool q 0) eqn:E; [|reflexivity].
  apply Qeq_bool_iff in E. rewrite H in E. contradiction.
Qed.

(** C7. A final output with the five required properties, empty agent
    notes, [scamDetected] true, a duration of 90 seconds and 6 messages in
    its engagement metrics, scored against a scenario whose only planted
    value is a bank account that occurs inside an extracted bank account,
    gets 20 + 10 + 20 + 20 = 70. *)
Theorem evaluateFinalOutput_scenario_70 (finalOutput : FinalOutput)
    (scenario : Scenario) (conversationHistory : list ConversationMessage)
    (extracted : Intelligence (list string)) (metrics : EngagementMetrics.t)
    (planted : string) (duration messages : Q) :
  allRequiredPresent finalOutput ->
  agentNotes finalOutput = None \/ agentNotes finalOutput = Some "" ->
  scamDetected finalOutput = Some true ->
  extractedIntelligence finalOutput = Some extracted ->
  engagementMetrics finalOutput = Some metrics ->
  EngagementMetrics.engagementDurationSeconds metrics = Some (Fin duration) ->
  (duration == 90)%Q ->
  EngagementMetrics.totalMessagesExchanged metrics = Some (Fin messages) ->
  (messages == 6)%Q ->
  fakeData scenario = [("bankAccount", Some planted)] ->
  planted <> "" ->
  (exists v, In v (bankAccounts extracted) /\ includes v planted = true) ->
  evaluateFinalOutput finalOutput scenario conversationHistory
  = Ok {| scamDetection := 20;
          intelligenceExtraction := 10;
          engagementQuality := 20;
          responseStructure := 20;
          total := 70 |}.
Proof.
  intros Hreq Hnotes Hscam Hex Hm Hd Hd90 Hn Hn6 Hfake Hne Hfound.
  destruct (allRequiredPresent_inv _ Hreq) as (H25 & _ & _).
  unfold evaluateFinalOutput. cbv zeta.
  rewrite Hex, Hm, Hfake, Hd, Hn, H25.
  rewrite (orZero_Fin duration 90 Hd90) by discriminate.
  rewrite (orZero_Fin messages 6 Hn6) by discriminate.
  rewrite !(gt_Fin duration 90 _ Hd90), (gt_Fin messages 6 _ Hn6),
    (ge_Fin messages 6 _ Hn6).
  assert (Hfound' : plantedFound extracted ("bankAccount", Some planted) = true).
  { unfold plantedFound; cbn [fst snd]. apply andb_true_iff. split.
    - apply negb_true_iff. now apply String.eqb_neq.
    - apply existsb_exists. exact Hfound. }
  change 0%Q with (inject_Z 0). rewrite scoreEntries_count.
  cbn [filter]. rewrite Hfound'.
  cbn [fieldTruthy hasField fold_left optionalFields]. rewrite Hscam.
  destruct Hnotes as [-> | ->]; reflexivity.
Qed.

(** C8. When the five required properties are on the final output, the
    response-structure score is exactly 20, whatever [agentNotes] is. *)
Theorem responseStructure_all_required (finalOutput : FinalOutput)
    (scenario : Scenario) (conversationHistory : list ConversationMessage) :
  allRequiredPresent finalOutput ->
  exists s,
    evaluateFinalOutput finalOutput scenario conversationHistory = Ok s
    /\ responseStructure s = 20%Q.
Proof.
  intros Hreq.
  destruct (allRequiredPresent_inv _ Hreq) as (H25 & [extracted Hex] & [metrics Hm]).
  unfold evaluateFinalOutput. cbv zeta.
  rewrite Hex, Hm, H25. change 0%Q with (inject_Z 0).
  rewrite scoreEntries_count.
  eexists; split; [reflexivity|].
  cbn [responseStructure fold_left optionalFields].
  destruct (hasField finalOutput K_agentNotes && fieldTruthy finalOutput K_agentNotes);
    reflexivity.
Qed.

(** C9. The score does not depend on the conversation history passed to
    [evaluateFinalOutput]. *)
Theorem evaluateFinalOutput_ignores_history (finalOutput : FinalOutput)
    (scenario : Scenario) (H1 H2 : list ConversationMessage) :
  evaluateFinalOutput finalOutput scenario H1
  = evaluateFinalOutput finalOutput scenario H2.
Proof. reflexivity. Qed.

(** C10. In the final output built by [createFinalOutput], the top-level
    message count and the one inside the engagement metrics are both the
    length of the conversation history, and the scenario passed in has no
    influence on the result. *)
Theorem createFinalOutput_message_count (sessionId : string)
    (conversationHistory : list ConversationMessage) (scamDetected : bool)
    (finalExtractedIntelligence : ExtractedIntelligence)
    (engagementDurationSeconds : number) (agentNotes : string)
    (scenario : Scenario) :
  totalMessagesExchanged
    (createFinalOutput sessionId conversationHistory scamDetected
       finalExtractedIntelligence engagementDurationSeconds agentNotes scenario)
  = Some (ofNat (length conversationHistory))
  /\ (exists metrics,
        engagementMetrics
          (createFinalOutput sessionId conversationHistory scamDetected
             finalExtractedIntelligence engagementDurationSeconds agentNotes
             scenario)
        = Some metrics
        /\ EngagementMetrics.totalMessagesExchanged metrics
           = Some (ofNat (length conversationHistory)))
  /\ (forall scenario' : Scenario,
        createFinalOutput sessionId conversationHistory scamDetected
          finalExtractedIntelligence engagementDurationSeconds agentNotes
          scenario'
        = createFinalOutput sessionId conversationHistory scamDetected
            finalExtractedIntelligence engagementDurationSeconds agentNotes
            scenario).
Proof.
  split; [reflexivity|]. split; [|reflexivity].
  eexists; split; reflexivity.
Qed.

(* ================================================================== *)
(** ** Properties of the matcher: every match makes progress *)

Section MatcherFacts.

Context {R : Type}.

Lemma orElse_Some (a b : option R) (x : R) :
  orElse a b = Some x -> a = Some x \/ b = Some x.
Proof. destruct a; simpl; auto. Qed.

Lemma repeat_unfold (cs : CharSet) (min : nat) (max : option nat)
    (prev : option ascii) (input : list ascii) (i : nat)
    (k : option ascii -> list ascii -> nat -> option R) :
  repeat cs min max prev input i k =
  match max with
  | Some O => k prev input i
  | _ =>
      let more :=
        match input with
        | c :: input' =>
            if cs c
            then repeat cs (Nat.pred min) (option_map Nat.pred max)
                        (Some c) input' (S i) k
            else None
        | [] => None
        end in
      match min with
      | S _ => more
      | O => orElse more (k prev input i)
      end
  end.
Proof. destruct input; reflexivity. Qed.

(** A run of [cs{min,max}] hands over to its continuation at least
    [min] code units further on (at most [max], hence the [Nat.min]), and
    never beyond the end of the input. *)
Lemma repeat_progress (cs : CharSet)
    (k : option ascii -> list ascii -> nat -> option R) (res : R) :
  forall (input : list ascii) (min : nat) (max : option nat)
         (prev : option ascii) (i : nat),
    repeat cs min max prev input i k = Some res ->
    exists prev' input' i',
      k prev' input' i' = Some res
      /\ i + repeatMin min max <= i'
      /\ i' + length input' = i + length input.
Proof.
  induction input as [|c input IH]; intros min max prev i H;
    rewrite repeat_unfold in H.
  - destruct max as [[|mx]|], min as [|m]; cbn in H;
      try discriminate; exists prev, [], i; cbn; repeat split; auto; lia.
  - assert (Hmore :
      (if cs c
       then repeat cs (Nat.pred min) (option_map Nat.pred max) (Some c) input (S i) k
       else None) = Some res ->
      exists prev' input' i',
        k prev' input' i' = Some res
        /\ S i + repeatMin (Nat.pred min) (option_map Nat.pred max) <= i'
        /\ i' + length input' = S i + length input).
    { destruct (cs c); [apply IH | discriminate]. }
    destruct max as [[|mx]|].
    + exists prev, (c :: input), i. cbn. repeat split; auto; lia.
    + destruct min as [|m]; cbv zeta in H.
      * apply orElse_Some in H. destruct H as [H|H].
        -- destruct (Hmore H) as (p' & l' & i' & Hk & Hi & Hl).
           exists p', l', i'. cbn in *. repeat split; auto; lia.
        -- exists prev, (c :: input), i. cbn. repeat split; auto; lia.
      * destruct (Hmore H) as (p' & l' & i' & Hk & Hi & Hl).
        exists p', l', i'. cbn in *. repeat split; auto; lia.
    + destruct min as [|m]; cbv zeta in H.
      * apply orElse_Some in H. destruct H as [H|H].
        -- destruct (Hmore H) as (p' & l' & i' & Hk & Hi & Hl).
           exists p', l', i'. cbn in *. repeat split; auto; lia.
        -- exists prev, (c :: input), i. cbn. repeat split; auto; lia.
      * destruct (Hmore H) as (p' & l' & i' & Hk & Hi & Hl).
        exists p', l', i'. cbn in *. repeat split; auto; lia.
Qed.

(** A successful run of [r] calls its continuation at a position at least
    [minLen r] code units further on, within the input. *)
Lemma run_progress (r : regex) :
  forall (p : Pos) (cap : Capture) (k : Cont R) (res : R),
    run r p cap k = Some res ->
    exists p' cap',
      k p' cap' = Some res
      /\ index p + minLen r <= index p'
      /\ index p' + length (rest p') = index p + length (rest p).
Proof.
  induction r as [|cs|cs min max|r1 IH1 r2 IH2|r1 IH1 r2 IH2|r1 IH1| |r1 IH1];
    intros p cap k res H; cbn [run minLen] in *.
  - exists p, cap. repeat split; auto; lia.
  - destruct (rest p) as [|c input'] eqn:Hrest; [discriminate|].
    destruct (cs c); [|discriminate].
    eexists _, cap. split; [exact H|]. cbn. lia.
  - apply repeat_progress in H. destruct H as (b & l & i & Hk & Hi & Hl).
    eexists _, cap. split; [exact Hk|]. cbn. lia.
  - apply IH1 in H. destruct H as (p1 & cap1 & H & Hi1 & Hl1).
    apply IH2 in H. destruct H as (p2 & cap2 & H & Hi2 & Hl2).
    exists p2, cap2. repeat split; auto; lia.
  - apply orElse_Some in H. destruct H as [H|H].
    + apply IH1 in H. destruct H as (p1 & cap1 & H & Hi1 & Hl1).
      exists p1, cap1. repeat split; auto; lia.
    + apply IH2 in H. destruct H as (p1 & cap1 & H & Hi1 & Hl1).
      exists p1, cap1. repeat split; auto; lia.
  - apply orElse_Some in H. destruct H as [H|H].
    + apply IH1 in H. destruct H as (p1 & cap1 & H & Hi1 & Hl1).
      destruct (index p1 =? index p)%nat; [discriminate|].
      exists p1, cap1. repeat split; auto; lia.
    + exists p, cap. repeat split; auto; lia.
  - destruct (xorb _ _); [|discriminate].
    exists p, cap. repeat split; auto; lia.
  - apply IH1 in H. destruct H as (p1 & cap1 & H & Hi1 & Hl1).
    eexists p1, _. split; [exact H|]. lia.
Qed.

End MatcherFacts.

(** The continuation of a successful run receives a capture for group 1
    when it was given one or when the pattern defines it on every path. *)
Lemma run_capture {R : Type} (r : regex) :
  forall (p : Pos) (cap : Capture) (k : Cont R) (res : R),
    run r p cap k = Some res ->
    exists p' cap',
      k p' cap' = Some res
      /\ (cap <> None \/ definesGroup r = true -> cap' <> None).
Proof.
  induction r as [|cs|cs min max|r1 IH1 r2 IH2|r1 IH1 r2 IH2|r1 IH1| |r1 IH1];
    intros p cap k res H; cbn [run definesGroup] in *.
  - exists p, cap. split; [exact H|]. intros [Hc|Hc]; [exact Hc|discriminate].
  - destruct (rest p) as [|c input']; [discriminate|].
    destruct (cs c); [|discriminate].
    eexists _, cap. split; [exact H|]. intros [Hc|Hc]; [exact Hc|discriminate].
  - apply repeat_progress in H. destruct H as (b & l & i & Hk & _).
    eexists _, cap. split; [exact Hk|]. intros [Hc|Hc]; [exact Hc|discriminate].
  - apply IH1 in H. destruct H as (p1 & cap1 & H & Hc1).
    apply IH2 in H. destruct H as (p2 & cap2 & H & Hc2).
    exists p2, cap2. split; [exact H|].
    rewrite orb_true_iff. tauto.
  - apply orElse_Some in H. destruct H as [H|H].
    + apply IH1 in H. destruct H as (p1 & cap1 & H & Hc1).
      exists p1, cap1. split; [exact H|].
      rewrite andb_true_iff. tauto.
    + apply IH2 in H. destruct H as (p1 & cap1 & H & Hc1).
      exists p1, cap1. split; [exact H|].
      rewrite andb_true_iff. tauto.
  - apply orElse_Some in H. destruct H as [H|H].
    + apply IH1 in H. destruct H as (p1 & cap1 & H & Hc1).
      destruct (index p1 =? index p)%nat; [discriminate|].
      exists p1, cap1. split; [exact H|].
      intros [Hc|Hc]; [tauto|discriminate].
    + exists p, cap. split; [exact H|].
      intros [Hc|Hc]; [exact Hc|discriminate].
  - destruct (xorb _ _); [|discriminate].
    exists p, cap. split; [exact H|].
    intros [Hc|Hc]; [exact Hc|discriminate].
  - apply IH1 in H. destruct H as (p1 & cap1 & H & _).
    eexists p1, _. split; [exact H|]. intros _. discriminate.
Qed.

Lemma search_capture (r : regex) (m : Match) :
  definesGroup r = true ->
  forall (input : list ascii) (prev : option ascii) (i : nat),
    search r prev input i = Some m -> group1 m <> None.
Proof.
  intros Hdef.
  induction input as [|c input IH]; intros prev i H; cbn [search] in H;
    apply orElse_Some in H; destruct H as [H|H];
    try discriminate; try (now apply IH in H);
    apply run_capture in H; destruct H as (p' & cap' & H & Hc);
    inversion H; subst; cbn; auto.
Qed.

(** The leftmost match from a position starts at or after it, spans at
    least [minLen r] code units and ends within the input. *)
Lemma search_bounds (r : regex) (m : Match) :
  forall (input : list ascii) (prev : option ascii) (i : nat),
    search r prev input i = Some m ->
    i <= matchIndex m
    /\ matchIndex m + minLen r <= matchEnd m
    /\ matchEnd m <= i + length input.
Proof.
  assert (Hhere : forall input prev i,
    run r {| before := prev; rest := input; index := i |} None
        (fun p' cap' =>
           Some {| matchIndex := i; matchEnd := index p'; group1 := cap' |})
    = Some m ->
    i <= matchIndex m /\ matchIndex m + minLen r <= matchEnd m
    /\ matchEnd m <= i + length input).
  { intros input prev i H. apply run_progress in H.
    destruct H as (p' & cap' & H & Hi & Hl). inversion H; subst; cbn in *. lia. }
  induction input as [|c input IH]; intros prev i H; cbn [search] in H;
    apply orElse_Some in H; destruct H as [H|H].
  - now apply Hhere in H.
  - discriminate.
  - now apply Hhere in H.
  - apply IH in H. cbn [length]. lia.
Qed.

Lemma seek_spec (n : nat) :
  forall (input : list ascii) (prev : option ascii) (i : nat),
    n <= length input ->
    index (seek prev input i n) = i + n
    /\ index (seek prev input i n) + length (rest (seek prev input i n))
       = i + length input.
Proof.
  induction n as [|n IH]; intros input prev i Hn.
  - destruct input; cbn; lia.
  - destruct input as [|c input]; cbn in Hn; [lia|].
    cbn [seek]. destruct (IH input (Some c) (S i)) as [H1 H2]; [lia|].
    cbn [length]. lia.
Qed.

Lemma length_units (s : string) : length (units s) = String.length s.
Proof.
  unfold units. induction s as [|c s IH]; simpl; [reflexivity | now f_equal].
Qed.

(** [exec] either finds a match and moves [lastIndex] forward, staying
    within the text, or finds none and puts [lastIndex] back to 0. *)
Lemma exec_progress (r : regex) (s : string) (lastIndex : nat) :
  1 <= minLen r ->
  match exec r s lastIndex with
  | (Some m, lastIndex') =>
      lastIndex < lastIndex' /\ lastIndex' <= String.length s
  | (None, lastIndex') => lastIndex' = 0
  end.
Proof.
  intros Hmin. unfold exec.
  destruct (String.length s <? lastIndex)%nat eqn:Hlt; [reflexivity|].
  apply Nat.ltb_ge in Hlt.
  destruct (seek_spec lastIndex (units s) None 0) as [Hi Hl];
    [now rewrite length_units|].
  destruct (search _ _ _ _) as [m|] eqn:Hs; [|reflexivity].
  apply search_bounds in Hs. rewrite length_units in Hl. lia.
Qed.

(* ================================================================== *)
(** ** Properties of the extractor *)

Lemma getLastIndex_set (id : RegexId) (n : nat) (st : RegexState) :
  getLastIndex id (setLastIndex id n st) = n.
Proof. destruct st, id; reflexivity. Qed.

Lemma setLastIndex_set (id : RegexId) (n m : nat) (st : RegexState) :
  setLastIndex id n (setLastIndex id m st) = setLastIndex id n st.
Proof. destruct st, id; reflexivity. Qed.

Lemma patterns_consume (id : RegexId) : 1 <= minLen (patternOf id).
Proof. destruct id; vm_compute; lia. Qed.

(** [match[1]] is a string at every match of [GENERIC_ID_REGEX]. *)
Lemma generic_token_defined (message : string) (lastIndex : nat) :
  match exec GENERIC_ID_REGEX message lastIndex with
  | (Some m, _) => captured message m <> None
  | (None, _) => True
  end.
Proof.
  unfold exec. destruct (String.length message <? lastIndex)%nat; [exact I|].
  destruct (search _ _ _ _) as [m|] eqn:Hs; [|exact I].
  apply search_capture in Hs; [|reflexivity].
  unfold captured. destruct (group1 m) as [[a b]|]; [discriminate|contradiction].
Qed.

(** The loop over one pattern comes to its end within
    [length message - lastIndex + 1] turns, and leaves [lastIndex] at 0. *)
Lemma while_total (id : RegexId) (message : string) (value : Match -> string) :
  forall (fuel : nat) (set : JsSet) (st : RegexState),
    String.length message - getLastIndex id st < fuel ->
    exists set',
      while fuel id message value set st = Some (set', setLastIndex id 0 st).
Proof.
  induction fuel as [|fuel IH]; intros set st Hfuel; [lia|].
  cbn [while]. unfold bind, execM.
  pose proof (exec_progress (patternOf id) message (getLastIndex id st)
                (patterns_consume id)) as Hexec.
  destruct (exec _ _ _) as [[m|] lastIndex'].
  - destruct (IH (Set_add set (value m)) (setLastIndex id lastIndex' st))
      as [set' Hset'].
    + rewrite getLastIndex_set. lia.
    + exists set'. rewrite Hset', setLastIndex_set. reflexivity.
  - subst. exists set. reflexivity.
Qed.

(** Whatever the six [lastIndex] are on entry, [extractIntelligence]
    returns, and all of them are 0 on exit. *)
Lemma extractIntelligence_total (message : string) (st : RegexState) :
  exists r, extractIntelligence message st = Some (r, initialState).
Proof.
  unfold extractIntelligence. cbv zeta. unfold bind.
  repeat match goal with
  | |- context [while ?f ?id ?msg ?v ?set ?s] =>
      let set' := fresh "set" in
      let H := fresh "H" in
      destruct (while_total id msg v f set s) as [set' H];
      [lia | rewrite H]
  end.
  eexists. unfold ret. destruct st; reflexivity.
Qed.

(** Every element of the set built by the loop is a value of some match. *)
Lemma while_Forall (id : RegexId) (message : string) (value : Match -> string)
    (P : string -> Prop) :
  (forall m, P (value m)) ->
  forall (fuel : nat) (set set' : JsSet) (st st' : RegexState),
    Forall P set ->
    while fuel id message value set st = Some (set', st') ->
    Forall P set'.
Proof.
  intros Hvalue. induction fuel as [|fuel IH]; intros set set' st st' Hset H;
    [discriminate|].
  cbn [while] in H. unfold bind, execM in H.
  destruct (exec _ _ _) as [[m|] lastIndex'].
  - apply IH in H; [exact H|]. unfold Set_add.
    destruct (existsb _ _); [exact Hset|].
    apply Forall_app. split; [exact Hset|]. constructor; [apply Hvalue|constructor].
  - inversion H; subst. exact Hset.
Qed.

Lemma units_removeAll (cs : CharSet) (s : string) :
  units (removeAll cs s) = filter (fun c => negb (cs c)) (units s).
Proof.
  unfold removeAll, units. apply list_ascii_of_string_of_list_ascii.
Qed.

(** What the normalisation does achieve: no stored phone number holds a
    hyphen, a parenthesis or white space. *)
Lemma phoneNumbers_no_noise (message : string) (st st' : RegexState)
    (r : ExtractedIntelligence) :
  extractIntelligence message st = Some (r, st') ->
  Forall (fun p => forallb (fun c => negb (phoneNoise c)) (units p) = true)
         (phoneNumbers r).
Proof.
  unfold extractIntelligence. cbv zeta. unfold bind. intros H.
  destruct (while _ PHONE_NUMBER _ _ _ _) as [[phones st1]|] eqn:Hphones;
    [|discriminate].
  apply while_Forall
    with (P := fun p => forallb (fun c => negb (phoneNoise c)) (units p) = true)
    in Hphones.
  - repeat match type of H with
           | match ?c with _ => _ end = _ =>
               destruct c as [[? ?]|]; [|discriminate]
           end.
    inversion H; subst. exact Hphones.
  - intros m. rewrite units_removeAll. apply forallb_forall.
    intros c Hc. apply filter_In in Hc. tauto.
  - constructor.
Qed.

(** C6. Two calls of [extractIntelligence] in a row on the same text, the
    first one in the state the module is loaded in, both return, and return
    the same six sets: each loop runs [exec] until it answers [null], which
    puts [lastIndex] back to 0, so no state survives a call. *)
Theorem extractIntelligence_idempotent (message : string) :
  exists r1 st1 r2 st2,
    extractIntelligence message initialState = Some (r1, st1)
    /\ extractIntelligence message st1 = Some (r2, st2)
    /\ r1 = r2.
Proof.
  destruct (extractIntelligence_total message initialState) as [r Hr].
  exists r, initialState, r, initialState. auto.
Qed.

(** C3. On the text [415.555.2671] the phone pattern matches the whole
    text, dots being separators it allows, and the normalisation leaves the
    dots in: the stored phone number is [415.555.2671]. *)
Theorem extractIntelligence_phone_keeps_dots :
  exists r st,
    extractIntelligence "415.555.2671" initialState = Some (r, st)
    /\ phoneNumbers r = ["415.555.2671"]
    /\ Exists (fun p => includes p "." = true) (phoneNumbers r).
Proof.
  eexists _, _. split; [vm_compute; reflexivity|].
  split; [reflexivity|]. constructor. reflexivity.
Qed.

(* ================================================================== *)
(** ** The statements at work on the sample session *)

(** The extractor on the messages of the specification's scenarios. *)
Example extract_phone_with_country_code :
  option_map (fun '(r, _) => phoneNumbers r)
    (extractIntelligence
       "URGENT: verify your account now, call +1 (415) 555-2671" initialState)
  = Some ["14155552671"].
Proof. vm_compute. reflexivity. Qed.

Example extract_upi_and_link :
  option_map (fun '(r, _) => (upiIds r, phishingLinks r))
    (extractIntelligence
       "Send payment to rahul.kumar@upi and confirm at http://bit.ly/abc123"
       initialState)
  = Some (["rahul.kumar@upi"], ["http://bit.ly/abc123"]).
Proof. vm_compute. reflexivity. Qed.

Example extract_reference_code :
  option_map (fun '(r, _) => otherIds r)
    (extractIntelligence "Your Ref: AB12CD issued" initialState)
  = Some ["AB12CD"].
Proof. vm_compute. reflexivity. Qed.

Example extract_sample_message :
  option_map fst (extractIntelligence "Account no 123456789012" initialState)
  = Some sampleIntelligence.
Proof. vm_compute. reflexivity. Qed.

Lemma sampleOutput_required : allRequiredPresent sampleOutput.
Proof. repeat constructor. Qed.

Lemma intelligenceExtraction_counts_planted_witness :
  exists s,
    evaluateFinalOutput sampleOutput sampleScenario sampleHistory = Ok s
    /\ intelligenceExtraction s
       = intelligenceScore sampleIntelligence (fakeData sampleScenario).
Proof.
  apply (intelligenceExtraction_counts_planted
           sampleOutput sampleScenario sampleHistory
           sampleIntelligence sampleMetrics); reflexivity.
Defined.

Lemma evaluateFinalOutput_scenario_70_witness :
  evaluateFinalOutput sampleOutput sampleScenario sampleHistory
  = Ok {| scamDetection := 20;
          intelligenceExtraction := 10;
          engagementQuality := 20;
          responseStructure := 20;
          total := 70 |}.
Proof.
  apply (evaluateFinalOutput_scenario_70
           sampleOutput sampleScenario sampleHistory
           sampleIntelligence sampleMetrics "123456789012" 90%Q 6%Q).
  - repeat constructor.
  - right; reflexivity.
  - reflexivity.
  - reflexivity.
  - reflexivity.
  - reflexivity.
  - reflexivity.
  - reflexivity.
  - reflexivity.
  - reflexivity.
  - discriminate.
  - exists "123456789012". split; [left; reflexivity | reflexivity].
Defined.

Lemma responseStructure_all_required_witness :
  exists s,
    evaluateFinalOutput sampleOutput sampleScenario sampleHistory = Ok s
    /\ responseStructure s = 20%Q.
Proof.
  apply (responseStructure_all_required
           sampleOutput sampleScenario sampleHistory).
  repeat constructor.
Defined.

(* ================================================================== *)
(** ** What a match consists of *)

Section ConsumedFacts.

Context {R : Type}.

(** A run of [cs{min,max}] consumes between [min] and [max] code units,
    all of them in [cs]. *)
Lemma repeat_consumed (cs : CharSet)
    (k : option ascii -> list ascii -> nat -> option R) (res : R) :
  forall (input : list ascii) (min : nat) (max : option nat)
         (prev : option ascii) (i : nat),
    repeat cs min max prev input i k = Some res ->
    exists prev' input' i' seg,
      k prev' input' i' = Some res
      /\ input = seg ++ input'
      /\ i' = i + length seg
      /\ Forall (fun c => cs c = true) seg
      /\ repeatMin min max <= length seg
      /\ fits max (length seg).
Proof.
  induction input as [|c input IH]; intros min max prev i H;
    rewrite repeat_unfold in H.
  - assert (Hk : k prev [] i = Some res).
    { destruct max as [[|mx]|], min as [|m]; cbn in H; congruence. }
    assert (Hmin : repeatMin min max = 0).
    { destruct max as [[|mx]|], min as [|m]; cbn in H |- *;
        try reflexivity; discriminate. }
    exists prev, [], i, []. rewrite Hmin. cbn.
    repeat split; auto; try lia. destruct max; cbn; auto; lia.
  - assert (Hstop : k prev (c :: input) i = Some res ->
                    repeatMin min max = 0 ->
                    exists prev' input' i' seg,
                      k prev' input' i' = Some res
                      /\ c :: input = seg ++ input'
                      /\ i' = i + length seg
                      /\ Forall (fun c => cs c = true) seg
                      /\ repeatMin min max <= length seg
                      /\ fits max (length seg)).
    { intros Hk Hmin. exists prev, (c :: input), i, []. rewrite Hmin. cbn.
      repeat split; auto; try lia. destruct max; cbn; auto; lia. }
    assert (Hmore : max <> Some 0 ->
      (if cs c
       then repeat cs (Nat.pred min) (option_map Nat.pred max) (Some c) input (S i) k
       else None) = Some res ->
      exists prev' input' i' seg,
        k prev' input' i' = Some res
        /\ c :: input = seg ++ input'
        /\ i' = i + length seg
        /\ Forall (fun c => cs c = true) seg
        /\ repeatMin min max <= length seg
        /\ fits max (length seg)).
    { intros Hmax Hrun. destruct (cs c) eqn:Hc; [|discriminate].
      apply IH in Hrun.
      destruct Hrun as (p' & l' & i' & seg & Hk & Hin & Hi & Hall & Hlo & Hhi).
      exists p', l', i', (c :: seg). cbn [length app].
      repeat split; auto; try lia.
      - now rewrite Hin.
      - destruct max as [[|mx]|], min as [|m]; cbn in *; lia.
      - destruct max as [[|mx]|]; cbn in *; try lia. congruence. }
    destruct max as [[|mx]|].
    + apply Hstop; [exact H | destruct min; reflexivity].
    + destruct min as [|m]; cbv zeta in H.
      * apply orElse_Some in H. destruct H as [H|H];
          [apply Hmore; [discriminate | exact H] | apply Hstop; auto].
      * apply Hmore; [discriminate | exact H].
    + destruct min as [|m]; cbv zeta in H.
      * apply orElse_Some in H. destruct H as [H|H];
          [apply Hmore; [discriminate | exact H] | apply Hstop; auto].
      * apply Hmore; [discriminate | exact H].
Qed.

Lemma fits_addMax (a b : option nat) (x y : nat) :
  fits a x -> fits b y -> fits (addMax a b) (x + y).
Proof. destruct a, b; cbn; auto; lia. Qed.

Lemma fits_maxMax_l (a b : option nat) (x : nat) :
  fits a x -> fits (maxMax a b) x.
Proof. destruct a, b; cbn; auto; lia. Qed.

Lemma fits_maxMax_r (a b : option nat) (x : nat) :
  fits b x -> fits (maxMax a b) x.
Proof. destruct a, b; cbn; auto; lia. Qed.

Lemma Forall_union_l (a b : CharSet) (seg : list ascii) :
  Forall (fun c => a c = true) seg ->
  Forall (fun c => union a b c = true) seg.
Proof.
  apply Forall_impl. intros c Hc. unfold union. now rewrite Hc.
Qed.

Lemma Forall_union_r (a b : CharSet) (seg : list ascii) :
  Forall (fun c => b c = true) seg ->
  Forall (fun c => union a b c = true) seg.
Proof.
  apply Forall_impl. intros c Hc. unfold union. rewrite Hc. apply orb_true_r.
Qed.

(** A successful run of [r] consumes a part of the input that [r] can
    consume, and calls its continuation right after it. *)
Lemma run_consumed (r : regex) :
  forall (p : Pos) (cap : Capture) (k : Cont R) (res : R),
    run r p cap k = Some res ->
    exists p' cap' seg,
      k p' cap' = Some res
      /\ rest p = seg ++ rest p'
      /\ index p' = index p + length seg
      /\ consumable r seg.
Proof.
  unfold consumable.
  induction r as [|cs|cs min max|r1 IH1 r2 IH2|r1 IH1 r2 IH2|r1 IH1| |r1 IH1];
    intros p cap k res H; cbn [run minLen maxLen alphabet] in *.
  - exists p, cap, []. cbn. repeat split; auto; lia.
  - destruct (rest p) as [|c input'] eqn:Hrest; [discriminate|].
    destruct (cs c) eqn:Hc; [|discriminate].
    eexists _, cap, [c]. split; [exact H|]. cbn. repeat split; auto; lia.
  - apply repeat_consumed in H.
    destruct H as (b & l & i & seg & Hk & Hin & Hi & Hall & Hlo & Hhi).
    eexists _, cap, seg. split; [exact Hk|]. cbn. repeat split; auto.
  - apply IH1 in H.
    destruct H as (p1 & cap1 & seg1 & H & Hin1 & Hi1 & Hall1 & Hlo1 & Hhi1).
    apply IH2 in H.
    destruct H as (p2 & cap2 & seg2 & H & Hin2 & Hi2 & Hall2 & Hlo2 & Hhi2).
    exists p2, cap2, (seg1 ++ seg2). rewrite length_app.
    repeat split; auto; try lia.
    + now rewrite Hin1, Hin2, app_assoc.
    + apply Forall_app. split;
        [now apply Forall_union_l | now apply Forall_union_r].
    + now apply fits_addMax.
  - apply orElse_Some in H. destruct H as [H|H].
    + apply IH1 in H.
      destruct H as (p1 & cap1 & seg1 & H & Hin1 & Hi1 & Hall1 & Hlo1 & Hhi1).
      exists p1, cap1, seg1. repeat split; auto; try lia.
      * now apply Forall_union_l.
      * now apply fits_maxMax_l.
    + apply IH2 in H.
      destruct H as (p1 & cap1 & seg1 & H & Hin1 & Hi1 & Hall1 & Hlo1 & Hhi1).
      exists p1, cap1, seg1. repeat split; auto; try lia.
      * now apply Forall_union_r.
      * now apply fits_maxMax_r.
  - apply orElse_Some in H. destruct H as [H|H].
    + apply IH1 in H.
      destruct H as (p1 & cap1 & seg1 & H & Hin1 & Hi1 & Hall1 & Hlo1 & Hhi1).
      destruct (index p1 =? index p)%nat; [discriminate|].
      exists p1, cap1, seg1. repeat split; auto; lia.
    + exists p, cap, []. cbn. repeat split; auto; try lia.
      destruct (maxLen r1); cbn; auto; lia.
  - destruct (xorb _ _); [|discriminate].
    exists p, cap, []. cbn. repeat split; auto; lia.
  - apply IH1 in H.
    destruct H as (p1 & cap1 & seg1 & H & Hin1 & Hi1 & Hall1 & Hlo1 & Hhi1).
    eexists p1, _, seg1. split; [exact H|]. repeat split; auto.
Qed.

Lemma wfPos_advance (s : list ascii) (p p' : Pos) (seg : list ascii) :
  wfPos s p ->
  rest p = seg ++ rest p' ->
  index p' = index p + length seg ->
  wfPos s p' /\ located s (index p) (index p') seg.
Proof.
  intros (pre & Hs & Hpre) Hrest Hidx. split.
  - exists (pre ++ seg). rewrite length_app, <- app_assoc, <- Hrest. split; [exact Hs | lia].
  - exists pre, (rest p'). rewrite <- Hrest. auto.
Qed.

(** Along a successful run, positions stay positions of the text and the
    capture keeps satisfying [Q]. *)
Lemma run_capture_inv (s : list ascii) (Q : list ascii -> Prop) (r : regex) :
  groupOK Q r ->
  forall (p : Pos) (cap : Capture) (k : Cont R) (res : R),
    wfPos s p -> capInv s Q cap ->
    run r p cap k = Some res ->
    exists p' cap',
      k p' cap' = Some res /\ wfPos s p' /\ capInv s Q cap'.
Proof.
  induction r as [|cs|cs min max|r1 IH1 r2 IH2|r1 IH1 r2 IH2|r1 IH1| |r1 IH1];
    intros Hok p cap k res Hwf Hcap H; cbn [run groupOK] in *.
  - exists p, cap. auto.
  - destruct (rest p) as [|c input'] eqn:Hrest; [discriminate|].
    destruct (cs c); [|discriminate].
    eexists _, cap. split; [exact H|]. split; [|exact Hcap].
    eapply (wfPos_advance s p _ [c]); [exact Hwf | exact Hrest | cbn; lia].
  - apply repeat_consumed in H.
    destruct H as (b & l & i & seg & Hk & Hin & Hi & _).
    eexists _, cap. split; [exact Hk|]. split; [|exact Hcap].
    eapply (wfPos_advance s p _ seg); [exact Hwf | exact Hin | exact Hi].
  - destruct Hok as [Hok1 Hok2].
    apply (IH1 Hok1 _ _ _ _ Hwf Hcap) in H.
    destruct H as (p1 & cap1 & H & Hwf1 & Hcap1).
    apply (IH2 Hok2 _ _ _ _ Hwf1 Hcap1) in H. exact H.
  - destruct Hok as [Hok1 Hok2].
    apply orElse_Some in H. destruct H as [H|H].
    + exact (IH1 Hok1 _ _ _ _ Hwf Hcap H).
    + exact (IH2 Hok2 _ _ _ _ Hwf Hcap H).
  - apply orElse_Some in H. destruct H as [H|H].
    + apply (IH1 Hok _ _ _ _ Hwf Hcap) in H.
      destruct H as (p1 & cap1 & H & Hwf1 & Hcap1).
      destruct (index p1 =? index p)%nat; [discriminate|].
      exists p1, cap1. auto.
    + exists p, cap. auto.
  - destruct (xorb _ _); [|discriminate].
    exists p, cap. auto.
  - apply run_consumed in H.
    destruct H as (p1 & cap1 & seg & H & Hin & Hi & Hcons).
    destruct (wfPos_advance s p p1 seg Hwf Hin Hi) as [Hwf1 Hloc].
    eexists p1, _. split; [exact H|]. split; [exact Hwf1|].
    cbn. exists seg. auto.
Qed.

End ConsumedFacts.

(** Every match that [search] finds is a match in the sense of
    [matchSpec]. *)
Lemma search_spec (r : regex) (s : list ascii) (Q : list ascii -> Prop)
    (m : Match) :
  groupOK Q r ->
  forall (input : list ascii) (prev : option ascii) (i : nat),
    wfPos s {| before := prev; rest := input; index := i |} ->
    search r prev input i = Some m ->
    matchSpec r s Q m.
Proof.
  intros Hok.
  assert (Hhere : forall input prev i,
    wfPos s {| before := prev; rest := input; index := i |} ->
    run r {| before := prev; rest := input; index := i |} None
        (fun p' cap' =>
           Some {| matchIndex := i; matchEnd := index p'; group1 := cap' |})
    = Some m ->
    matchSpec r s Q m).
  { intros input prev i Hwf H. split.
    - apply run_consumed in H.
      destruct H as (p' & cap' & seg & H & Hin & Hi & Hcons).
      inversion H; subst; cbn [matchIndex matchEnd].
      exists seg. split; [|exact Hcons].
      exact (proj2 (wfPos_advance s _ p' seg Hwf Hin Hi)).
    - apply (run_capture_inv s Q r Hok _ None _ _ Hwf I) in H.
      destruct H as (p' & cap' & H & _ & Hcap).
      inversion H; subst. exact Hcap. }
  induction input as [|c input IH]; intros prev i Hwf H; cbn [search] in H;
    apply orElse_Some in H; destruct H as [H|H].
  - exact (Hhere _ _ _ Hwf H).
  - discriminate.
  - exact (Hhere _ _ _ Hwf H).
  - apply IH in H; [exact H|].
    apply (wfPos_advance s _ {| before := Some c; rest := input; index := S i |} [c])
      in Hwf; [tauto | reflexivity | cbn; lia].
Qed.

Lemma seek_wf (s : list ascii) (n : nat) :
  forall (input : list ascii) (prev : option ascii) (i : nat),
    wfPos s {| before := prev; rest := input; index := i |} ->
    wfPos s (seek prev input i n).
Proof.
  induction n as [|n IH]; intros input prev i Hwf.
  - destruct input; exact Hwf.
  - destruct input as [|c input]; [exact Hwf|].
    cbn [seek]. apply IH.
    apply (wfPos_advance s _ {| before := Some c; rest := input; index := S i |} [c])
      in Hwf; [tauto | reflexivity | cbn; lia].
Qed.

(** Every match that [exec] returns is a match in the sense of
    [matchSpec]. *)
Lemma exec_spec (r : regex) (s : string) (Q : list ascii -> Prop)
    (lastIndex lastIndex' : nat) (m : Match) :
  groupOK Q r ->
  exec r s lastIndex = (Some m, lastIndex') ->
  matchSpec r (units s) Q m.
Proof.
  intros Hok H. unfold exec in H.
  destruct (String.length s <? lastIndex)%nat; [discriminate|].
  destruct (search _ _ _ _) as [m'|] eqn:Hs; [|discriminate].
  inversion H; subst.
  assert (Hwf : wfPos (units s) (seek None (units s) 0 lastIndex)).
  { apply seek_wf. exists []. auto. }
  destruct (seek None (units s) 0 lastIndex) as [b l i].
  exact (search_spec r (units s) Q m Hok _ _ _ Hwf Hs).
Qed.

(** From lists of code units back to strings. *)
Lemma string_of_list_ascii_app (a b : list ascii) :
  string_of_list_ascii (a ++ b)
  = (string_of_list_ascii a ++ string_of_list_ascii b)%string.
Proof. induction a as [|c a IH]; cbn; [reflexivity | now rewrite IH]. Qed.

Lemma substring_located (seg post : list ascii) :
  forall (pre : list ascii) (s : string),
    units s = pre ++ seg ++ post ->
    substring (length pre) (length seg) s = string_of_list_ascii seg.
Proof.
  assert (H0 : forall seg s, units s = seg ++ post ->
                substring 0 (length seg) s = string_of_list_ascii seg).
  { clear seg. induction seg as [|c seg IH]; intros s Hs.
    - destruct s; reflexivity.
    - destruct s as [|d s]; [discriminate|].
      cbn in Hs. inversion Hs; subst. cbn. f_equal. now apply IH. }
  induction pre as [|c pre IH]; intros s Hs.
  - now apply H0.
  - destruct s as [|d s]; [discriminate|].
    cbn in Hs. inversion Hs; subst. cbn. now apply IH.
Qed.

Lemma located_substring (s : string) (a b : nat) (seg : list ascii) :
  located (units s) a b seg ->
  substring a (b - a) s = string_of_list_ascii seg.
Proof.
  intros (pre & post & Hs & Ha & Hb). subst a b.
  replace (length pre + length seg - length pre) with (length seg) by lia.
  eapply substring_located; eauto.
Qed.

Lemma located_includes (s : string) (a b : nat) (seg : list ascii) :
  located (units s) a b seg ->
  includes s (string_of_list_ascii seg) = true.
Proof.
  intros (pre & post & Hs & _ & _). apply includes_spec.
  exists (string_of_list_ascii pre), (string_of_list_ascii post).
  rewrite <- !string_of_list_ascii_app, <- Hs.
  unfold units. now rewrite string_of_list_ascii_of_string.
Qed.

Lemma located_length (s : list ascii) (a b : nat) (seg : list ascii) :
  located s a b seg -> b <= length s.
Proof.
  intros (pre & post & Hs & Ha & Hb). subst. rewrite !length_app. lia.
Qed.

Lemma length_string_of_list_ascii (l : list ascii) :
  String.length (string_of_list_ascii l) = length l.
Proof. induction l; cbn; congruence. Qed.

(* ================================================================== *)
(** ** What the extractor stores *)

Lemma groupOK_True (r : regex) : groupOK (fun _ => True) r.
Proof. induction r; cbn; auto. Qed.

(** A property of the value of every match that [exec] can return holds of
    every element of the set the loop builds. *)
Lemma while_Forall_exec (id : RegexId) (message : string)
    (value : Match -> string) (P : string -> Prop) :
  (forall lastIndex lastIndex' m,
      exec (patternOf id) message lastIndex = (Some m, lastIndex') ->
      P (value m)) ->
  forall (fuel : nat) (set set' : JsSet) (st st' : RegexState),
    Forall P set ->
    while fuel id message value set st = Some (set', st') ->
    Forall P set'.
Proof.
  intros Hvalue. induction fuel as [|fuel IH]; intros set set' st st' Hset H;
    [discriminate|].
  cbn [while] in H. unfold bind, execM in H.
  destruct (exec _ _ _) as [[m|] lastIndex'] eqn:Hexec.
  - apply IH in H; [exact H|]. unfold Set_add.
    destruct (existsb _ _); [exact Hset|].
    apply Forall_app. split; [exact Hset|].
    constructor; [|constructor]. eapply Hvalue; eauto.
  - inversion H; subst. exact Hset.
Qed.

Lemma Set_add_NoDup (set : JsSet) (x : string) :
  NoDup set -> NoDup (Set_add set x).
Proof.
  intros Hset. unfold Set_add. destruct (existsb _ _) eqn:Hx; [exact Hset|].
  apply NoDup_app; [exact Hset | repeat constructor; auto |].
  intros y Hy [Hxy|[]]. subst y.
  assert (existsb (String.eqb x) set = true); [|congruence].
  apply existsb_exists. exists x. split; [exact Hy | apply String.eqb_refl].
Qed.

Lemma while_NoDup (id : RegexId) (message : string) (value : Match -> string) :
  forall (fuel : nat) (set set' : JsSet) (st st' : RegexState),
    NoDup set ->
    while fuel id message value set st = Some (set', st') ->
    NoDup set'.
Proof.
  induction fuel as [|fuel IH]; intros set set' st st' Hset H; [discriminate|].
  cbn [while] in H. unfold bind, execM in H.
  destruct (exec _ _ _) as [[m|] lastIndex'].
  - apply IH in H; [exact H|]. now apply Set_add_NoDup.
  - inversion H; subst. exact Hset.
Qed.

(** A text shorter than the shortest match of a pattern has no match. *)
Lemma exec_short (r : regex) (s : string) (lastIndex : nat) :
  String.length s < minLen r ->
  exec r s lastIndex = (None, 0).
Proof.
  intros Hshort. unfold exec.
  destruct (String.length s <? lastIndex)%nat eqn:Hlt; [reflexivity|].
  apply Nat.ltb_ge in Hlt.
  destruct (seek_spec lastIndex (units s) None 0) as [Hi Hl];
    [now rewrite length_units|].
  destruct (search _ _ _ _) as [m|] eqn:Hs; [|reflexivity].
  apply search_bounds in Hs. rewrite length_units in Hl. lia.
Qed.

Lemma while_short (id : RegexId) (message : string) (value : Match -> string)
    (fuel : nat) (set : JsSet) (st : RegexState) :
  String.length message < minLen (patternOf id) ->
  while (S fuel) id message value set st = Some (set, setLastIndex id 0 st).
Proof.
  intros Hshort. cbn [while]. unfold bind, execM.
  now rewrite exec_short.
Qed.

(** The six loops behind a result of [extractIntelligence]. *)
Lemma extractIntelligence_loops (message : string) (st st' : RegexState)
    (r : ExtractedIntelligence) :
  extractIntelligence message st = Some (r, st') ->
  let turns := S (String.length message) in
  let token m :=
    match captured message m with Some t => t | None => "undefined" end in
  exists st1 st2 st3 st4 st5,
    while turns PHONE_NUMBER message
          (fun m => removeAll phoneNoise (matched message m)) [] st
    = Some (phoneNumbers r, st1)
    /\ while turns BANK_ACCOUNT message (matched message) [] st1
       = Some (bankAccounts r, st2)
    /\ while turns UPI_ID message (matched message) [] st2
       = Some (upiIds r, st3)
    /\ while turns PHISHING_LINK message (matched message) [] st3
       = Some (phishingLinks r, st4)
    /\ while turns EMAIL_ADDRESS message (matched message) [] st4
       = Some (emailAddresses r, st5)
    /\ while turns GENERIC_ID message token [] st5
       = Some (otherIds r, st').
Proof.
  unfold extractIntelligence. cbv zeta. unfold bind. intros H.
  repeat match type of H with
         | match ?c with _ => _ end = _ =>
             let E := fresh "E" in
             destruct c as [[? ?]|] eqn:E; [|discriminate]
         end.
  inversion H; subst. cbn [phoneNumbers bankAccounts upiIds phishingLinks
                           emailAddresses otherIds].
  do 5 eexists. repeat split; eassumption.
Qed.

(** The value stored for a match of a pattern without normalisation is the
    part of the text the pattern consumed. *)
Lemma matched_spec (id : RegexId) (message : string)
    (lastIndex lastIndex' : nat) (m : Match) :
  exec (patternOf id) message lastIndex = (Some m, lastIndex') ->
  exists seg,
    matched message m = string_of_list_ascii seg
    /\ includes message (matched message m) = true
    /\ consumable (patternOf id) seg.
Proof.
  intros H. apply (exec_spec _ _ (fun _ => True)) in H; [|apply groupOK_True].
  destruct H as [(seg & Hloc & Hcons) _].
  exists seg. unfold matched. rewrite (located_substring _ _ _ _ Hloc).
  split; [reflexivity|]. split; [|exact Hcons].
  exact (located_includes _ _ _ _ Hloc).
Qed.

Lemma allIn_string_of_list_ascii (cs : CharSet) (seg : list ascii) :
  Forall (fun c => cs c = true) seg ->
  allIn cs (string_of_list_ascii seg) = true.
Proof.
  intros H. unfold allIn, units.
  rewrite list_ascii_of_string_of_list_ascii.
  apply forallb_forall. now apply Forall_forall.
Qed.

Ltac by_code_unit c :=
  destruct c as [[] [] [] [] [] [] [] []]; vm_compute; congruence.

Lemma bank_alphabet (c : ascii) :
  alphabet BANK_ACCOUNT_REGEX c = true -> union digit upper c = true.
Proof. by_code_unit c. Qed.

Lemma generic_group_alphabet (c : ascii) :
  ignoreCase alnum c = true -> alnum c = true.
Proof. by_code_unit c. Qed.

Lemma phone_alphabet (c : ascii) :
  alphabet PHONE_NUMBER_REGEX c = true ->
  phoneNoise c = false ->
  union digit (oneOf "+.") c = true.
Proof. by_code_unit c. Qed.

Lemma upi_alphabet (c : ascii) :
  alphabet UPI_ID_REGEX c = true -> isWhiteSpace c = false.
Proof. by_code_unit c. Qed.

Lemma link_alphabet (c : ascii) :
  alphabet PHISHING_LINK_REGEX c = true -> isWhiteSpace c = false.
Proof. by_code_unit c. Qed.

Lemma email_alphabet (c : ascii) :
  alphabet EMAIL_ADDRESS_REGEX c = true -> isWhiteSpace c = false.
Proof. by_code_unit c. Qed.

Lemma generic_groupOK :
  groupOK (fun seg => Forall (fun c => alnum c = true) seg
                      /\ 4 <= length seg <= 15)
          GENERIC_ID_REGEX.
Proof.
  unfold GENERIC_ID_REGEX, litI, cat. cbn [fold_right map units
    list_ascii_of_string groupOK].
  repeat split; try exact I.
  - destruct H as (Hall & _ & _). revert Hall. cbn [alphabet].
    apply Forall_impl. exact generic_group_alphabet.
  - destruct H as (_ & Hlo & _). exact Hlo.
  - destruct H as (_ & _ & Hhi). exact Hhi.
Qed.

(** [match[1]] of a match of [GENERIC_ID_REGEX]: 4 to 15 letters and digits
    of the text. *)
Lemma generic_token_spec (message : string) (lastIndex lastIndex' : nat)
    (m : Match) :
  exec (patternOf GENERIC_ID) message lastIndex = (Some m, lastIndex') ->
  exists seg,
    captured message m = Some (string_of_list_ascii seg)
    /\ includes message (string_of_list_ascii seg) = true
    /\ Forall (fun c => alnum c = true) seg
    /\ 4 <= length seg <= 15.
Proof.
  intros H. cbn [patternOf] in H.
  pose proof (generic_token_defined message lastIndex) as Hdef.
  rewrite H in Hdef.
  apply (exec_spec _ _ _ _ _ _ generic_groupOK) in H.
  destruct H as [_ Hcap]. unfold captured in *.
  destruct (group1 m) as [[a b]|]; [|contradiction].
  destruct Hcap as (seg & Hloc & Hall & Hlen).
  exists seg. rewrite (located_substring _ _ _ _ Hloc).
  repeat split; auto; try lia.
  exact (located_includes _ _ _ _ Hloc).
Qed.

(** From any values of the six [lastIndex], a call of [extractIntelligence]
    comes to its end and leaves all six at 0. *)
Theorem extractIntelligence_resets_lastIndex (message : string)
    (st : RegexState) :
  exists r, extractIntelligence message st = Some (r, initialState).
Proof. exact (extractIntelligence_total message st). Qed.

(** Every bank account, UPI id, link, email address and reference code that
    is stored occurs in the message text as it is stored. *)
Theorem extracted_values_occur_in_text (message : string)
    (st st' : RegexState) (r : ExtractedIntelligence) :
  extractIntelligence message st = Some (r, st') ->
  Forall (fun v => includes message v = true)
         (bankAccounts r ++ upiIds r ++ phishingLinks r
          ++ emailAddresses r ++ otherIds r).
Proof.
  intros H. apply extractIntelligence_loops in H. cbv zeta in H.
  destruct H as (st1 & st2 & st3 & st4 & st5 & _ & Hb & Hu & Hl & He & Ho).
  assert (Hwhole : forall id lastIndex lastIndex' m,
    exec (patternOf id) message lastIndex = (Some m, lastIndex') ->
    includes message (matched message m) = true).
  { intros id li li' m Hm.
    destruct (matched_spec id message li li' m Hm) as (seg & _ & Hinc & _).
    exact Hinc. }
  repeat (apply Forall_app; split).
  - eapply while_Forall_exec; [apply (Hwhole BANK_ACCOUNT) | constructor | exact Hb].
  - eapply while_Forall_exec; [apply (Hwhole UPI_ID) | constructor | exact Hu].
  - eapply while_Forall_exec; [apply (Hwhole PHISHING_LINK) | constructor | exact Hl].
  - eapply while_Forall_exec; [apply (Hwhole EMAIL_ADDRESS) | constructor | exact He].
  - eapply while_Forall_exec; [| constructor | exact Ho].
    intros li li' m Hm. cbn beta.
    destruct (generic_token_spec message li li' m Hm) as (seg & -> & Hinc & _).
    exact Hinc.
Qed.

(** Every stored bank account is 9 to 18 code units long and consists of
    digits and capital letters only. *)
Theorem bankAccounts_shape (message : string) (st st' : RegexState)
    (r : ExtractedIntelligence) :
  extractIntelligence message st = Some (r, st') ->
  Forall (fun v => 9 <= String.length v <= 18
                   /\ allIn (union digit upper) v = true)
         (bankAccounts r).
Proof.
  intros H. apply extractIntelligence_loops in H. cbv zeta in H.
  destruct H as (st1 & st2 & _ & _ & _ & _ & Hb & _).
  eapply while_Forall_exec; [| constructor | exact Hb].
  intros li li' m Hm.
  destruct (matched_spec BANK_ACCOUNT message li li' m Hm)
    as (seg & -> & _ & Hall & Hlo & Hhi).
  rewrite length_string_of_list_ascii.
  split; [exact (conj Hlo Hhi)|].
  apply allIn_string_of_list_ascii. revert Hall.
  apply Forall_impl. exact bank_alphabet.
Qed.

(** Every stored reference code is 4 to 15 code units long and consists of
    letters and digits only: the label and the separator are left out. *)
Theorem otherIds_shape (message : string) (st st' : RegexState)
    (r : ExtractedIntelligence) :
  extractIntelligence message st = Some (r, st') ->
  Forall (fun v => 4 <= String.length v <= 15 /\ allIn alnum v = true)
         (otherIds r).
Proof.
  intros H. apply extractIntelligence_loops in H. cbv zeta in H.
  destruct H as (st1 & st2 & st3 & st4 & st5 & _ & _ & _ & _ & _ & Ho).
  eapply while_Forall_exec; [| constructor | exact Ho].
  intros li li' m Hm. cbn beta.
  destruct (generic_token_spec message li li' m Hm) as (seg & -> & _ & Hall & Hlen).
  rewrite length_string_of_list_ascii. split; [exact Hlen|].
  now apply allIn_string_of_list_ascii.
Qed.

(** Every stored phone number consists of digits, plus signs and dots
    only, and is at most 19 code units long. *)
Theorem phoneNumbers_shape (message : string) (st st' : RegexState)
    (r : ExtractedIntelligence) :
  extractIntelligence message st = Some (r, st') ->
  Forall (fun v => allIn (union digit (oneOf "+.")) v = true
                   /\ String.length v <= 19)
         (phoneNumbers r).
Proof.
  intros H. apply extractIntelligence_loops in H. cbv zeta in H.
  destruct H as (st1 & _ & _ & _ & _ & Hp & _).
  eapply while_Forall_exec; [| constructor | exact Hp].
  intros li li' m Hm. cbn beta.
  destruct (matched_spec PHONE_NUMBER message li li' m Hm)
    as (seg & -> & _ & Hall & _ & Hhi).
  unfold removeAll, units. rewrite list_ascii_of_string_of_list_ascii. split.
  - apply allIn_string_of_list_ascii. apply Forall_forall.
    intros c Hc. apply filter_In in Hc. destruct Hc as [Hc Hnoise].
    rewrite Forall_forall in Hall. apply phone_alphabet; [now apply Hall|].
    now apply negb_true_iff.
  - rewrite length_string_of_list_ascii.
    etransitivity; [apply filter_length_le | exact Hhi].
Qed.

(** Every stored UPI id, link and email address is at least 3, 10 and 6
    code units long, and none of them holds white space. *)
Theorem upi_link_email_shape (message : string) (st st' : RegexState)
    (r : ExtractedIntelligence) :
  extractIntelligence message st = Some (r, st') ->
  Forall (fun v => 3 <= String.length v
                   /\ allIn (fun c => negb (isWhiteSpace c)) v = true)
         (upiIds r)
  /\ Forall (fun v => 10 <= String.length v
                      /\ allIn (fun c => negb (isWhiteSpace c)) v = true)
            (phishingLinks r)
  /\ Forall (fun v => 6 <= String.length v
                      /\ allIn (fun c => negb (isWhiteSpace c)) v = true)
            (emailAddresses r).
Proof.
  intros H. apply extractIntelligence_loops in H. cbv zeta in H.
  destruct H as (st1 & st2 & st3 & st4 & st5 & _ & _ & Hu & Hl & He & _).
  assert (Hshape : forall id n,
    n = minLen (patternOf id) ->
    (forall c, alphabet (patternOf id) c = true -> isWhiteSpace c = false) ->
    forall lastIndex lastIndex' m,
      exec (patternOf id) message lastIndex = (Some m, lastIndex') ->
      n <= String.length (matched message m)
      /\ allIn (fun c => negb (isWhiteSpace c)) (matched message m) = true).
  { intros id n -> Halpha li li' m Hm.
    destruct (matched_spec id message li li' m Hm)
      as (seg & -> & _ & Hall & Hlo & _).
    rewrite length_string_of_list_ascii. split; [exact Hlo|].
    apply allIn_string_of_list_ascii. revert Hall.
    apply Forall_impl. intros c Hc. apply negb_true_iff. now apply Halpha. }
  repeat split.
  - eapply while_Forall_exec; [| constructor | exact Hu].
    apply (Hshape UPI_ID); [reflexivity | exact upi_alphabet].
  - eapply while_Forall_exec; [| constructor | exact Hl].
    apply (Hshape PHISHING_LINK); [reflexivity | exact link_alphabet].
  - eapply while_Forall_exec; [| constructor | exact He].
    apply (Hshape EMAIL_ADDRESS); [reflexivity | exact email_alphabet].
Qed.

(** A text too short for a pattern yields nothing in its category: fewer
    than 10 code units no phone number and no link, fewer than 9 no bank
    account, fewer than 7 no reference code, fewer than 6 no email address,
    fewer than 3 no UPI id.  The empty text yields six empty sets. *)
Theorem short_text_extracts_nothing (message : string) (st st' : RegexState)
    (r : ExtractedIntelligence) :
  extractIntelligence message st = Some (r, st') ->
  (String.length message < 10 -> phoneNumbers r = [] /\ phishingLinks r = [])
  /\ (String.length message < 9 -> bankAccounts r = [])
  /\ (String.length message < 7 -> otherIds r = [])
  /\ (String.length message < 6 -> emailAddresses r = [])
  /\ (String.length message < 3 -> upiIds r = []).
Proof.
  intros H. apply extractIntelligence_loops in H. cbv zeta in H.
  destruct H as (st1 & st2 & st3 & st4 & st5 & Hp & Hb & Hu & Hl & He & Ho).
  assert (Hshort : forall id value n set' sta stb,
    n = minLen (patternOf id) ->
    while (S (String.length message)) id message value [] sta = Some (set', stb) ->
    String.length message < n -> set' = []).
  { intros id value n set' sta stb -> Hw Hlt.
    rewrite while_short in Hw by exact Hlt. now inversion Hw. }
  split; [intros Hlt; split|].
  - exact (Hshort PHONE_NUMBER _ 10 _ _ _ eq_refl Hp Hlt).
  - exact (Hshort PHISHING_LINK _ 10 _ _ _ eq_refl Hl Hlt).
  - split; [|split; [|split]]; intros Hlt.
    + exact (Hshort BANK_ACCOUNT _ 9 _ _ _ eq_refl Hb Hlt).
    + exact (Hshort GENERIC_ID _ 7 _ _ _ eq_refl Ho Hlt).
    + exact (Hshort EMAIL_ADDRESS _ 6 _ _ _ eq_refl He Hlt).
    + exact (Hshort UPI_ID _ 3 _ _ _ eq_refl Hu Hlt).
Qed.

(** No category holds the same string twice. *)
Theorem extracted_sets_have_no_duplicates (message : string)
    (st st' : RegexState) (r : ExtractedIntelligence) :
  extractIntelligence message st = Some (r, st') ->
  NoDup (phoneNumbers r) /\ NoDup (bankAccounts r) /\ NoDup (upiIds r)
  /\ NoDup (phishingLinks r) /\ NoDup (emailAddresses r) /\ NoDup (otherIds r).
Proof.
  intros H. apply extractIntelligence_loops in H. cbv zeta in H.
  destruct H as (st1 & st2 & st3 & st4 & st5 & Hp & Hb & Hu & Hl & He & Ho).
  repeat split; eapply while_NoDup; try eassumption; constructor.
Qed.

(* ================================================================== *)
(** ** More on the keyword classifier *)

Lemma toLowerCase_app (a b : string) :
  toLowerCase (a ++ b) = (toLowerCase a ++ toLowerCase b)%string.
Proof. induction a as [|c a IH]; cbn; [reflexivity | now rewrite IH]. Qed.

(** Detection does not depend on letter case or on the surrounding text: a
    message that holds, anywhere, a run of code units whose lower-case form
    is a keyword is classified as a scam. *)
Theorem detectScam_any_case (before after word keyword : string)
    (currentScamDetected : bool) :
  In keyword SCAM_KEYWORDS ->
  toLowerCase word = keyword ->
  detectScam (before ++ word ++ after) currentScamDetected = true.
Proof.
  intros Hin Hword. destruct currentScamDetected; [reflexivity|].
  unfold detectScam. apply existsb_exists.
  exists keyword. split; [exact Hin|].
  pose proof SCAM_KEYWORDS_lower as HL. rewrite Forall_forall in HL.
  rewrite (HL keyword Hin). apply includes_spec.
  exists (toLowerCase before), (toLowerCase after).
  now rewrite !toLowerCase_app, Hword.
Qed.

(** Over the messages of a session, feeding each answer back in as the
    flag: the flag at the end is set exactly when it was set at the start or
    some message on its own is classified as a scam.  It never goes back. *)
Theorem detectScam_session (messages : list string) (flag : bool) :
  fold_left (fun detected message => detectScam message detected) messages flag
  = flag || existsb (fun message => detectScam message false) messages.
Proof.
  revert flag. induction messages as [|message messages IH]; intros flag;
    cbn [fold_left existsb].
  - now rewrite orb_false_r.
  - rewrite IH. destruct flag; cbn [detectScam orb]; [|reflexivity].
    reflexivity.
Qed.

(* ================================================================== *)
(** ** More on the scorer *)

(** Without the [extractedIntelligence] object the loop throws exactly when
    some planted value is defined and non-empty. *)
Lemma scoreEntries_None (entries : list (string * option string)) (q : Q) :
  scoreEntries None entries q
  = if existsb plantedDefined entries then TypeError else Ok q.
Proof.
  induction entries as [|[fakeKey [planted|]] entries IH];
    cbn [scoreEntries scoreEntry existsb plantedDefined snd orb];
    [reflexivity| |exact IH].
  destruct (JsString.truthy planted); [reflexivity | exact IH].
Qed.

Lemma plantedDefined_exists (entries : list (string * option string)) :
  existsb plantedDefined entries = true <->
  exists key planted, In (key, Some planted) entries /\ planted <> "".
Proof.
  rewrite existsb_exists. split.
  - intros ([key [planted|]] & Hin & Hdef); cbn in Hdef; [|discriminate].
    exists key, planted. split; [exact Hin|].
    intros ->. discriminate.
  - intros (key & planted & Hin & Hne). exists (key, Some planted).
    split; [exact Hin|]. cbn. destruct planted; [contradiction | reflexivity].
Qed.

(** [evaluateFinalOutput] throws in two cases only: the engagement metrics
    are missing, or the extracted intelligence is missing while the scenario
    has a planted value that is defined and non-empty. *)
Theorem evaluateFinalOutput_throws_iff (finalOutput : FinalOutput)
    (scenario : Scenario) (conversationHistory : list ConversationMessage) :
  evaluateFinalOutput finalOutput scenario conversationHistory = TypeError <->
  engagementMetrics finalOutput = None
  \/ (extractedIntelligence finalOutput = None
      /\ exists key planted,
           In (key, Some planted) (fakeData scenario) /\ planted <> "").
Proof.
  rewrite <- plantedDefined_exists.
  unfold evaluateFinalOutput. cbv zeta.
  destruct (extractedIntelligence finalOutput) as [extracted|].
  - change 0%Q with (inject_Z 0). rewrite scoreEntries_count.
    destruct (engagementMetrics finalOutput); split;
      try discriminate; auto.
    + intros [H|[H _]]; discriminate.
  - rewrite scoreEntries_None.
    destruct (existsb plantedDefined (fakeData scenario)).
    + split; auto.
    + destruct (engagementMetrics finalOutput); split;
        try discriminate; auto.
      intros [H|[_ H]]; discriminate.
Qed.

(** A final output built by [createFinalOutput] can always be scored: the
    scorer returns, the response-structure score is 20, the scam-detection
    score is 20 exactly when the flag passed in was set, and the
    intelligence score is the one of the accumulated sets. *)
Theorem evaluate_createFinalOutput (session : string)
    (history : list ConversationMessage) (detected : bool)
    (intelligence : ExtractedIntelligence) (duration : number)
    (notes : string) (scenario scoredAgainst : Scenario)
    (conversationHistory : list ConversationMessage) :
  exists s,
    evaluateFinalOutput
      (createFinalOutput session history detected intelligence duration
                         notes scenario)
      scoredAgainst conversationHistory = Ok s
    /\ responseStructure s = 20%Q
    /\ scamDetection s = (if detected then 20%Q else 0%Q)
    /\ intelligenceExtraction s
       = intelligenceScore intelligence (fakeData scoredAgainst).
Proof.
  destruct intelligence as [ph ba up li em ot].
  unfold evaluateFinalOutput, createFinalOutput, Array_from. cbv zeta.
  cbn [extractedIntelligence engagementMetrics phoneNumbers bankAccounts
       upiIds phishingLinks emailAddresses otherIds].
  change 0%Q with (inject_Z 0). rewrite scoreEntries_count.
  eexists. split; [reflexivity|].
  cbn [responseStructure scamDetection intelligenceExtraction fold_left
       requiredFields optionalFields hasField fieldTruthy isSome
       sessionId scamDetected agentNotes totalMessagesExchanged
       extractedIntelligence engagementMetrics andb].
  split; [|split; reflexivity].
  destruct (JsString.truthy notes); reflexivity.
Qed.

Lemma filter_length_Permutation {A : Type} (f : A -> bool) (l l' : list A) :
  Permutation l l' -> length (filter f l) = length (filter f l').
Proof.
  induction 1 as [|x l l' _ IH|x y l|l l' l'' _ IH1 _ IH2]; cbn.
  - reflexivity.
  - destruct (f x); cbn; congruence.
  - destruct (f x), (f y); reflexivity.
  - congruence.
Qed.

Lemma existsb_Permutation {A : Type} (f : A -> bool) (l l' : list A) :
  Permutation l l' -> existsb f l = existsb f l'.
Proof.
  induction 1 as [|x l l' _ IH|x y l|l l' l'' _ IH1 _ IH2]; cbn.
  - reflexivity.
  - now rewrite IH.
  - destruct (f x), (f y); reflexivity.
  - congruence.
Qed.

(** The order in which [Object.entries] lists the planted values has no
    influence on the outcome: two scenarios whose [fakeData] hold the same
    entries in a different order get the same result, be it a score or the
    exception. *)
Theorem evaluateFinalOutput_entry_order (finalOutput : FinalOutput)
    (scenario scenario' : Scenario)
    (conversationHistory : list ConversationMessage) :
  Permutation (fakeData scenario) (fakeData scenario') ->
  evaluateFinalOutput finalOutput scenario conversationHistory
  = evaluateFinalOutput finalOutput scenario' conversationHistory.
Proof.
  intros Hperm. unfold evaluateFinalOutput. cbv zeta.
  destruct (extractedIntelligence finalOutput) as [extracted|].
  - change 0%Q with (inject_Z 0). rewrite !scoreEntries_count.
    now rewrite (filter_length_Permutation _ _ _ Hperm).
  - rewrite !scoreEntries_None.
    now rewrite (existsb_Permutation _ _ _ Hperm).
Qed.

Lemma gt_60_gt_0 (x : number) : gt x 60%Q = true -> gt x 0%Q = true.
Proof.
  destruct x as [| | |p]; cbn; auto.
  rewrite !negb_true_iff. intros H.
  apply not_true_is_false. intros H0. apply Qle_bool_iff in H0.
  assert (Qle_bool p 60 = true) by (apply Qle_bool_iff; lra). congruence.
Qed.

Lemma ge_5_gt_0 (x : number) : ge x 5%Q = true -> gt x 0%Q = true.
Proof.
  destruct x as [| | |p]; cbn; auto.
  rewrite negb_true_iff. intros H. apply Qle_bool_iff in H.
  apply not_true_is_false. intros H0. apply Qle_bool_iff in H0. lra.
Qed.

(** The engagement score is the full 20 exactly when the duration is above
    60 seconds and there are at least 5 messages, and it is 0 exactly when
    neither the duration nor the message count is above 0 (which includes
    values that are missing or NaN). *)
Theorem engagementQuality_extremes (finalOutput : FinalOutput)
    (scenario : Scenario) (conversationHistory : list ConversationMessage)
    (metrics : EngagementMetrics.t) (s : ScoreBreakdown) :
  engagementMetrics finalOutput = Some metrics ->
  evaluateFinalOutput finalOutput scenario conversationHistory = Ok s ->
  (engagementQuality s = 20%Q <->
   gt (orZero (EngagementMetrics.engagementDurationSeconds metrics)) 60%Q = true
   /\ ge (orZero (EngagementMetrics.totalMessagesExchanged metrics)) 5%Q = true)
  /\ (engagementQuality s = 0%Q <->
      gt (orZero (EngagementMetrics.engagementDurationSeconds metrics)) 0%Q = false
      /\ gt (orZero (EngagementMetrics.totalMessagesExchanged metrics)) 0%Q = false).
Proof.
  intros Hm H. unfold evaluateFinalOutput in H. cbv zeta in H.
  destruct (scoreEntries _ _ _); [|discriminate]. rewrite Hm in H.
  inversion H; subst; clear H. cbn [engagementQuality].
  pose proof (gt_60_gt_0
    (orZero (EngagementMetrics.engagementDurationSeconds metrics))) as Hd.
  pose proof (ge_5_gt_0
    (orZero (EngagementMetrics.totalMessagesExchanged metrics))) as Hn.
  destruct (gt (orZero (EngagementMetrics.engagementDurationSeconds metrics)) 0%Q),
    (gt (orZero (EngagementMetrics.engagementDurationSeconds metrics)) 60%Q),
    (gt (orZero (EngagementMetrics.totalMessagesExchanged metrics)) 0%Q),
    (ge (orZero (EngagementMetrics.totalMessagesExchanged metrics)) 5%Q);
    vm_compute; repeat split; intros; try discriminate; try tauto;
    try match goal with
        | Hx : _ /\ _ |- _ => destruct Hx; discriminate
        end;
    try (specialize (Hd eq_refl); discriminate);
    try (specialize (Hn eq_refl); discriminate).
Qed.

Lemma correspondingCategory_incl (a b : Intelligence (list string))
    (fakeKey : string) :
  containedIn a b ->
  incl (correspondingCategory a fakeKey) (correspondingCategory b fakeKey).
Proof.
  intros (Hp & Hb & Hu & Hl & He & Ho). unfold correspondingCategory.
  repeat match goal with
         | |- context [if ?c then _ else _] => destruct c; [assumption|]
         end.
  apply incl_refl.
Qed.

Lemma plantedFound_mono (a b : Intelligence (list string))
    (entry : string * option string) :
  containedIn a b ->
  plantedFound a entry = true -> plantedFound b entry = true.
Proof.
  intros Hab. unfold plantedFound. destruct (snd entry) as [planted|]; [|auto].
  rewrite !andb_true_iff, !existsb_exists.
  intros [Hne (v & Hin & Hinc)]. split; [exact Hne|].
  exists v. split; [|exact Hinc].
  exact (correspondingCategory_incl a b (fst entry) Hab v Hin).
Qed.

Lemma filter_length_mono {A : Type} (f g : A -> bool) (l : list A) :
  (forall x, f x = true -> g x = true) ->
  length (filter f l) <= length (filter g l).
Proof.
  intros Hfg. induction l as [|x l IH]; cbn; [lia|].
  destruct (f x) eqn:Hf.
  - rewrite (Hfg x Hf). cbn. lia.
  - destruct (g x); cbn; lia.
Qed.

(** Extracting more never costs points: when every category of the
    extracted intelligence grows (or stays), the intelligence score and the
    total do not go down, and the other three scores stay as they are. *)
Theorem evaluateFinalOutput_monotone (finalOutput : FinalOutput)
    (scenario : Scenario) (conversationHistory : list ConversationMessage)
    (extracted more : Intelligence (list string))
    (metrics : EngagementMetrics.t) :
  extractedIntelligence finalOutput = Some extracted ->
  engagementMetrics finalOutput = Some metrics ->
  containedIn extracted more ->
  exists s s',
    evaluateFinalOutput finalOutput scenario conversationHistory = Ok s
    /\ evaluateFinalOutput (withExtracted finalOutput more) scenario
                           conversationHistory = Ok s'
    /\ (intelligenceExtraction s <= intelligenceExtraction s')%Q
    /\ (total s <= total s')%Q
    /\ scamDetection s' = scamDetection s
    /\ engagementQuality s' = engagementQuality s
    /\ responseStructure s' = responseStructure s.
Proof.
  intros Hex Hm Hsub. unfold evaluateFinalOutput. cbv zeta.
  cbn [withExtracted extractedIntelligence engagementMetrics].
  rewrite Hex, Hm. change 0%Q with (inject_Z 0). rewrite !scoreEntries_count.
  do 2 eexists. split; [reflexivity|]. split; [reflexivity|].
  cbn [scamDetection intelligenceExtraction engagementQuality
       responseStructure total].
  assert (Hie :
    (Qmin (inject_Z (0 + 10 * Z.of_nat
             (length (filter (plantedFound extracted) (fakeData scenario))))) 40
     <= Qmin (inject_Z (0 + 10 * Z.of_nat
             (length (filter (plantedFound more) (fakeData scenario))))) 40)%Q).
  { apply Q.min_le_compat_r. rewrite <- Zle_Qle.
    pose proof (filter_length_mono (plantedFound extracted) (plantedFound more)
                  (fakeData scenario)
                  (fun e => plantedFound_mono extracted more e Hsub)).
    lia. }
  assert (Hfields : forall field,
    hasField (withExtracted finalOutput more) field = hasField finalOutput field
    /\ fieldTruthy (withExtracted finalOutput more) field
       = fieldTruthy finalOutput field).
  { intros []; cbn; rewrite ?Hex; auto. }
  cbn [fold_left requiredFields optionalFields].
  repeat match goal with
         | |- context [hasField (withExtracted finalOutput more) ?f] =>
             rewrite (proj1 (Hfields f))
         | |- context [fieldTruthy (withExtracted finalOutput more) ?f] =>
             rewrite (proj2 (Hfields f))
         end.
  split; [exact Hie|]. split; [|auto].
  apply Qplus_le_l. apply Qplus_le_l. apply Qplus_le_r. exact Hie.
Qed.

(* ================================================================== *)
(** ** Properties of the reply path *)

Section ReplyFacts.

Variable API_KEY : string.
Variable SYSTEM_INSTRUCTION : string.
Variable generateContent :
  string -> GenerateContentParameters -> outcome (option string).

Lemma truthy_true_iff (s : string) : JsString.truthy s = true <-> s <> "".
Proof. destruct s; cbn; split; congruence. Qed.

(** What [callGemini] does with a key: one request, and an answer made from
    the answer of the service. *)
Lemma callGemini_with_key (history : list ConversationMessage)
    (latest instruction : string) :
  API_KEY <> "" ->
  let request :=
    {| model := "gemini-flash-latest";
       parts :=
         map (fun msg => (senderString (sender msg) ++ ": " ++ text msg)%string)
             history
         ++ [("scammer: " ++ latest)%string];
       systemInstruction := instruction;
       temperature := (8 # 10)%Q;
       topP := (9 # 10)%Q;
       topK := 40;
       maxOutputTokens := 200 |} in
  callGemini API_KEY generateContent history latest instruction
  = (Returned
       match generateContent API_KEY request with
       | Returned (Some t) => if (t =? "")%string then emptyReplyText else t
       | Returned None => emptyReplyText
       | Thrown _ => serviceErrorText
       end,
     [request]).
Proof.
  intros Hkey. apply truthy_true_iff in Hkey.
  unfold callGemini, createGeminiClient. rewrite Hkey.
  cbn [negb]. cbv zeta. rewrite map_id. cbn [senderString].
  change ("scammer" ++ ": " ++ latest)%string with ("scammer: " ++ latest)%string.
  destruct (generateContent API_KEY _) as [[t|]|e]; try reflexivity.
  rewrite truthy_nonempty. destruct (t =? "")%string; reflexivity.
Qed.

Lemma callGemini_without_key (history : list ConversationMessage)
    (latest instruction : string) :
  API_KEY = "" ->
  callGemini API_KEY generateContent history latest instruction
  = (Returned serviceErrorText, []).
Proof.
  intros Hkey. unfold callGemini, createGeminiClient. now rewrite Hkey.
Qed.

Lemma callGemini_returns (history : list ConversationMessage)
    (latest instruction : string) :
  exists reply sent,
    callGemini API_KEY generateContent history latest instruction
    = (Returned reply, sent)
    /\ reply <> "" /\ length sent <= 1.
Proof.
  destruct (string_dec API_KEY "") as [Hkey|Hkey].
  - rewrite (callGemini_without_key _ _ _ Hkey).
    do 2 eexists. split; [reflexivity|]. split; [discriminate | cbn; lia].
  - rewrite (callGemini_with_key _ _ _ Hkey). cbv zeta.
    do 2 eexists. split; [reflexivity|]. split; [|cbn; lia].
    destruct (generateContent API_KEY _) as [[t|]|e]; try discriminate.
    destruct (String.eqb_spec t ""); [discriminate | assumption].
Qed.

Lemma generateHoneypotReply_is_callGemini
    (conversationHistory : list ConversationMessage) (latest : string) :
  generateHoneypotReply API_KEY SYSTEM_INSTRUCTION generateContent
                        conversationHistory latest
  = callGemini API_KEY generateContent
      (filter (fun msg => negb (Sender_eqb (sender msg) USER)) conversationHistory)
      latest SYSTEM_INSTRUCTION.
Proof.
  unfold generateHoneypotReply. cbv zeta.
  destruct (callGemini_returns
              (filter (fun msg => negb (Sender_eqb (sender msg) USER))
                      conversationHistory) latest SYSTEM_INSTRUCTION)
    as (reply & sent & -> & _). reflexivity.
Qed.

(** [callGemini] never throws and never answers with the empty string: it
    returns the text of the service, or one of its two fixed apologies, and
    it sends at most one request. *)
Theorem callGemini_always_replies (history : list ConversationMessage)
    (latest instruction : string) :
  exists reply sent,
    callGemini API_KEY generateContent history latest instruction
    = (Returned reply, sent)
    /\ reply <> ""
    /\ length sent <= 1.
Proof. exact (callGemini_returns history latest instruction). Qed.

(** With a key, [callGemini] sends exactly one request: one part per message
    of the history, in order, each as sender and text, then the latest
    message labelled as the scammer's.  The reply is the text of the
    service when there is one, the first apology when the text is empty or
    undefined, the second apology when the service throws. *)
Theorem callGemini_one_request (history : list ConversationMessage)
    (latest instruction : string) :
  API_KEY <> "" ->
  exists request,
    snd (callGemini API_KEY generateContent history latest instruction)
    = [request]
    /\ parts request
       = map (fun msg => (senderString (sender msg) ++ ": " ++ text msg)%string)
             history
         ++ [("scammer: " ++ latest)%string]
    /\ systemInstruction request = instruction
    /\ fst (callGemini API_KEY generateContent history latest instruction)
       = Returned
           match generateContent API_KEY request with
           | Returned (Some t) => if (t =? "")%string then emptyReplyText else t
           | Returned None => emptyReplyText
           | Thrown _ => serviceErrorText
           end.
Proof.
  intros Hkey. rewrite (callGemini_with_key _ _ _ Hkey).
  cbv zeta. eexists. repeat split.
Qed.

(** [generateHoneypotReply] is [callGemini] on the history without the
    messages of [Sender.USER], with the persona as system instruction.  Its
    own [catch] branch is never taken, [callGemini] having caught everything
    already, so its fallback text is never what comes back on a failure. *)
Theorem generateHoneypotReply_fallback_unused
    (conversationHistory : list ConversationMessage) (latest : string) :
  generateHoneypotReply API_KEY SYSTEM_INSTRUCTION generateContent
                        conversationHistory latest
  = callGemini API_KEY generateContent
      (filter (fun msg => negb (Sender_eqb (sender msg) USER)) conversationHistory)
      latest SYSTEM_INSTRUCTION.
Proof. exact (generateHoneypotReply_is_callGemini conversationHistory latest). Qed.

Lemma filter_map_history (history : list MessagePart.t) :
  map (fun msg : ConversationMessage =>
         (senderString (sender msg) ++ ": " ++ text msg)%string)
      (filter (fun msg : ConversationMessage => negb (Sender_eqb (sender msg) USER))
         (map (fun msg =>
                 {| sender := MessagePart.sender msg;
                    text := MessagePart.text msg;
                    timestamp := MessagePart.timestamp msg;
                    type := MessagePart.sender msg |}) history))
  = map partOf
        (filter (fun msg => negb (Sender_eqb (MessagePart.sender msg) USER)) history).
Proof.
  induction history as [|msg history IH]; [reflexivity|].
  cbn [map filter sender].
  destruct (Sender_eqb (MessagePart.sender msg) USER); cbn [negb map];
    [exact IH|].
  f_equal. exact IH.
Qed.

(** The parts [handleHoneypotApiRequest] has sent to the service. *)
Lemma handle_sent (request : APIRequest.t) :
  API_KEY <> "" ->
  exists sentRequest,
    snd (handleHoneypotApiRequest API_KEY SYSTEM_INSTRUCTION generateContent request)
    = [sentRequest]
    /\ systemInstruction sentRequest = SYSTEM_INSTRUCTION
    /\ parts sentRequest
       = map partOf
             (filter (fun msg => negb (Sender_eqb (MessagePart.sender msg) USER))
                     (APIRequest.conversationHistory request
                      ++ [APIRequest.message request]))
         ++ [("scammer: " ++ MessagePart.text (APIRequest.message request))%string].
Proof.
  intros Hkey. unfold handleHoneypotApiRequest. cbv zeta.
  rewrite generateHoneypotReply_is_callGemini.
  rewrite (callGemini_with_key _ _ _ Hkey). cbv zeta.
  eexists. split; [reflexivity|]. split; [reflexivity|].
  cbn [parts]. f_equal.
  rewrite <- filter_map_history, map_app. reflexivity.
Qed.


(** With a key, [handleHoneypotApiRequest] sends one request, with the
    persona as system instruction.  Its parts are the messages of the
    history followed by the current message, those of [Sender.USER] left
    out, each as sender and text, and then the text of the current message
    once more, labelled as the scammer's. *)
Theorem handleHoneypotApiRequest_request (request : APIRequest.t) :
  API_KEY <> "" ->
  exists sentRequest,
    snd (handleHoneypotApiRequest API_KEY SYSTEM_INSTRUCTION generateContent request)
    = [sentRequest]
    /\ systemInstruction sentRequest = SYSTEM_INSTRUCTION
    /\ parts sentRequest
       = map partOf
             (filter (fun msg => negb (Sender_eqb (MessagePart.sender msg) USER))
                     (APIRequest.conversationHistory request
                      ++ [APIRequest.message request]))
         ++ [("scammer: " ++ MessagePart.text (APIRequest.message request))%string].
Proof. exact (handle_sent request). Qed.

(** When the current message is the scammer's, the service is given it
    twice: the request ends with two equal parts. *)
Theorem handleHoneypotApiRequest_sends_message_twice (request : APIRequest.t) :
  API_KEY <> "" ->
  MessagePart.sender (APIRequest.message request) = SCAMMER ->
  exists sentRequest earlier,
    snd (handleHoneypotApiRequest API_KEY SYSTEM_INSTRUCTION generateContent request)
    = [sentRequest]
    /\ parts sentRequest
       = earlier
         ++ [("scammer: " ++ MessagePart.text (APIRequest.message request))%string;
             ("scammer: " ++ MessagePart.text (APIRequest.message request))%string].
Proof.
  intros Hkey Hsender.
  destruct (handle_sent request Hkey) as (sentRequest & Hsent & _ & Hparts).
  exists sentRequest,
    (map partOf
         (filter (fun msg => negb (Sender_eqb (MessagePart.sender msg) USER))
                 (APIRequest.conversationHistory request))).
  split; [exact Hsent|]. rewrite Hparts, filter_app, map_app.
  cbn [filter]. rewrite Hsender. cbn [Sender_eqb negb map].
  unfold partOf at 2. rewrite Hsender. cbn [senderString].
  rewrite <- app_assoc. reflexivity.
Qed.

End ReplyFacts.

(* ================================================================== *)
(** ** The further statements at work on the samples *)

Example extract_sampleText :
  extractIntelligence sampleText initialState
  = Some (sampleExtraction, initialState).
Proof. vm_compute. reflexivity. Qed.

Example extract_short_text :
  extractIntelligence "hi" initialState = Some (noExtraction, initialState).
Proof. vm_compute. reflexivity. Qed.

Lemma extracted_values_occur_in_text_witness :
  Forall (fun v => includes sampleText v = true)
         ["123456789012"; "a.b@upi.co"; "http://bit.ly/x1"; "a.b@upi.co";
          "AB12CD"].
Proof.
  apply (extracted_values_occur_in_text
           sampleText initialState initialState sampleExtraction).
  vm_compute. reflexivity.
Defined.

Lemma bankAccounts_shape_witness :
  Forall (fun v => 9 <= String.length v <= 18
                   /\ allIn (union digit upper) v = true)
         ["123456789012"].
Proof.
  apply (bankAccounts_shape sampleText initialState initialState sampleExtraction).
  vm_compute. reflexivity.
Defined.

Lemma otherIds_shape_witness :
  Forall (fun v => 4 <= String.length v <= 15 /\ allIn alnum v = true)
         ["AB12CD"].
Proof.
  apply (otherIds_shape sampleText initialState initialState sampleExtraction).
  vm_compute. reflexivity.
Defined.

Lemma phoneNumbers_shape_witness :
  Forall (fun v => allIn (union digit (oneOf "+.")) v = true
                   /\ String.length v <= 19)
         ["415.555.2671"; "123456789012"].
Proof.
  apply (phoneNumbers_shape sampleText initialState initialState sampleExtraction).
  vm_compute. reflexivity.
Defined.

Lemma upi_link_email_shape_witness :
  Forall (fun v => 3 <= String.length v
                   /\ allIn (fun c => negb (isWhiteSpace c)) v = true)
         ["a.b@upi.co"]
  /\ Forall (fun v => 10 <= String.length v
                      /\ allIn (fun c => negb (isWhiteSpace c)) v = true)
            ["http://bit.ly/x1"]
  /\ Forall (fun v => 6 <= String.length v
                      /\ allIn (fun c => negb (isWhiteSpace c)) v = true)
            ["a.b@upi.co"].
Proof.
  apply (upi_link_email_shape sampleText initialState initialState sampleExtraction).
  vm_compute. reflexivity.
Defined.

Lemma short_text_extracts_nothing_witness :
  (2 < 10 -> @nil string = [] /\ @nil string = [])
  /\ (2 < 9 -> @nil string = [])
  /\ (2 < 7 -> @nil string = [])
  /\ (2 < 6 -> @nil string = [])
  /\ (2 < 3 -> @nil string = []).
Proof.
  apply (short_text_extracts_nothing "hi" initialState initialState noExtraction).
  vm_compute. reflexivity.
Defined.

Lemma extracted_sets_have_no_duplicates_witness :
  NoDup ["415.555.2671"; "123456789012"] /\ NoDup ["123456789012"]
  /\ NoDup ["a.b@upi.co"] /\ NoDup ["http://bit.ly/x1"]
  /\ NoDup ["a.b@upi.co"] /\ NoDup ["AB12CD"].
Proof.
  apply (extracted_sets_have_no_duplicates
           sampleText initialState initialState sampleExtraction).
  vm_compute. reflexivity.
Defined.

Lemma detectScam_any_case_witness :
  detectScam "Please VERIFY now" false = true.
Proof.
  apply (detectScam_any_case "Please " " now" "VERIFY" "verify" false).
  - simpl. tauto.
  - reflexivity.
Defined.

Lemma evaluateFinalOutput_entry_order_witness :
  evaluateFinalOutput sampleOutput twoPlanted sampleHistory
  = evaluateFinalOutput sampleOutput twoPlantedSwapped sampleHistory.
Proof.
  apply (evaluateFinalOutput_entry_order
           sampleOutput twoPlanted twoPlantedSwapped sampleHistory).
  apply perm_swap.
Defined.

Lemma engagementQuality_extremes_witness :
  (20%Q = 20%Q <->
   gt (orZero (Some (Fin 90%Q))) 60%Q = true
   /\ ge (orZero (Some (ofNat 6))) 5%Q = true)
  /\ (20%Q = 0%Q <->
      gt (orZero (Some (Fin 90%Q))) 0%Q = false
      /\ gt (orZero (Some (ofNat 6))) 0%Q = false).
Proof.
  apply (engagementQuality_extremes
           sampleOutput sampleScenario sampleHistory sampleMetrics
           {| scamDetection := 20;
              intelligenceExtraction := 10;
              engagementQuality := 20;
              responseStructure := 20;
              total := 70 |}).
  - reflexivity.
  - reflexivity.
Defined.

Lemma evaluateFinalOutput_monotone_witness :
  exists s s',
    evaluateFinalOutput sampleOutput twoPlanted sampleHistory = Ok s
    /\ evaluateFinalOutput (withExtracted sampleOutput sampleExtraction)
                           twoPlanted sampleHistory = Ok s'
    /\ (intelligenceExtraction s <= intelligenceExtraction s')%Q
    /\ (total s <= total s')%Q
    /\ scamDetection s' = scamDetection s
    /\ engagementQuality s' = engagementQuality s
    /\ responseStructure s' = responseStructure s.
Proof.
  apply (evaluateFinalOutput_monotone
           sampleOutput twoPlanted sampleHistory
           sampleIntelligence sampleExtraction sampleMetrics).
  - reflexivity.
  - reflexivity.
  - unfold containedIn. simpl. unfold incl. simpl. tauto.
Defined.

Lemma callGemini_one_request_witness :
  exists request,
    snd (callGemini "key" sampleService sampleHistory "Send it now" "persona")
    = [request]
    /\ parts request
       = map (fun msg => (senderString (sender msg) ++ ": " ++ text msg)%string)
             sampleHistory
         ++ ["scammer: Send it now"]
    /\ systemInstruction request = "persona"
    /\ fst (callGemini "key" sampleService sampleHistory "Send it now" "persona")
       = Returned
           match sampleService "key" request with
           | Returned (Some t) => if (t =? "")%string then emptyReplyText else t
           | Returned None => emptyReplyText
           | Thrown _ => serviceErrorText
           end.
Proof.
  apply (callGemini_one_request "key" sampleService sampleHistory
                                "Send it now" "persona").
  discriminate.
Defined.

Lemma handleHoneypotApiRequest_request_witness :
  exists sentRequest,
    snd (handleHoneypotApiRequest "key" "persona" sampleService sampleRequest)
    = [sentRequest]
    /\ systemInstruction sentRequest = "persona"
    /\ parts sentRequest
       = ["scammer: URGENT: your account is blocked";
          "honeypot: Oh dear, what should I do?";
          "scammer: Account no 123456789012";
          "scammer: Account no 123456789012"].
Proof.
  apply (handleHoneypotApiRequest_request "key" "persona" sampleService
                                          sampleRequest).
  discriminate.
Defined.

Lemma handleHoneypotApiRequest_sends_message_twice_witness :
  exists sentRequest earlier,
    snd (handleHoneypotApiRequest "key" "persona" sampleService sampleRequest)
    = [sentRequest]
    /\ parts sentRequest
       = earlier ++ ["scammer: Account no 123456789012";
                     "scammer: Account no 123456789012"].
Proof.
  apply (handleHoneypotApiRequest_sends_message_twice
           "key" "persona" sampleService sampleRequest).
  - discriminate.
  - reflexivity.
Defined.
